(** * Maya module manager: descriptor files, parsing, compatibility, rewrite

    A shallow embedding of the non-GUI core of [module_manager.py]:
    [get_module_file_paths], [parse_module_line], [filter_module_file],
    [read_module_file], [update_module_file] and
    [MayaModuleDetail.is_compatible] / [_emit_enabled_changed].

    Conventions.
    - A Python [str] is a [string]; a character is a code point below 256
      (Latin-1), so [isspace] and [lower] are Python's restricted to that
      range.
    - A Python [dict] with string keys and values is a [gmap string string];
      [==] on dicts is equality of maps.
    - Dictionaries handed around by reference live in a heap indexed by
      object identities; files live in a disk indexed by path.  Code with
      effects runs in a state-and-exception monad over that world.
    - Text files are read with universal newlines; written text is kept as
      Python hands it to the file object (one ["\n"] per line). *)

From Stdlib Require Import String Ascii List Lia Permutation Sorted.
From stdpp Require Import base option list gmap strings fin_maps.

Open Scope string_scope.
Import ListNotations.

(** ** Characters and strings *)

Module Str.

(** [str.isspace] for one code point below 256: TAB..CR, FS..US, space,
    NEL and NBSP. *)
Definition isspace (c : ascii) : bool :=
  let n := nat_of_ascii c in
  (((9 <=? n) && (n <=? 13)) || ((28 <=? n) && (n <=? 32))
   || (n =? 133) || (n =? 160))%nat.

(** [str.lower] on one code point below 256. *)
Definition lower_char (c : ascii) : ascii :=
  let n := nat_of_ascii c in
  if (((65 <=? n) && (n <=? 90))
      || ((192 <=? n) && (n <=? 222) && negb (n =? 215)))%nat
  then ascii_of_nat (n + 32) else c.

Fixpoint lower (s : string) : string :=
  match s with
  | EmptyString => EmptyString
  | String c s' => String (lower_char c) (lower s')
  end.

(** [s[n:]] *)
Fixpoint drop (n : nat) (s : string) : string :=
  match n, s with
  | 0, _ => s
  | S _, EmptyString => EmptyString
  | S n', String _ s' => drop n' s'
  end.

(** [s[:n]] *)
Fixpoint take (n : nat) (s : string) : string :=
  match n, s with
  | 0, _ => EmptyString
  | S _, EmptyString => EmptyString
  | S n', String c s' => String c (take n' s')
  end.

(** [s.startswith(p)] *)
Definition startswith (s p : string) : bool := String.prefix p s.

(** [s.endswith(p)] *)
Definition endswith (s p : string) : bool :=
  String.eqb (drop (String.length s - String.length p) s) p
  && (String.length p <=? String.length s)%nat.

Fixpoint lstrip (s : string) : string :=
  match s with
  | EmptyString => EmptyString
  | String c s' => if isspace c then lstrip s' else s
  end.

Fixpoint rstrip (s : string) : string :=
  match s with
  | EmptyString => EmptyString
  | String c s' =>
      match rstrip s' with
      | EmptyString => if isspace c then EmptyString else String c EmptyString
      | r => String c r
      end
  end.

(** [s.strip()] *)
Definition strip (s : string) : string := rstrip (lstrip s).

(** [s.split()]: maximal runs of non-whitespace characters. *)
Fixpoint split (s : string) : list string :=
  match s with
  | EmptyString => []
  | String c s' =>
      if isspace c then split s'
      else match s' with
           | EmptyString => [String c EmptyString]
           | String c' _ =>
               if isspace c' then String c EmptyString :: split s'
               else match split s' with
                    | t :: ts => String c t :: ts
                    | [] => [String c EmptyString]
                    end
           end
  end.

(** ["".join(l)] *)
Fixpoint concat (l : list string) : string :=
  match l with
  | [] => EmptyString
  | s :: l' => s +:+ concat l'
  end.

(** Newline translation of a text file opened with [newline=None]:
    ["\r\n"] and a lone ["\r"] both read as ["\n"]. *)
Definition LF : ascii := ascii_of_nat 10.
Definition CR : ascii := ascii_of_nat 13.

Fixpoint universal_newlines (s : string) : string :=
  match s with
  | EmptyString => EmptyString
  | String c s' =>
      if Ascii.eqb c CR then
        match s' with
        | String c' s'' =>
            if Ascii.eqb c' LF then String LF (universal_newlines s'')
            else String LF (universal_newlines s')
        | EmptyString => String LF EmptyString
        end
      else String c (universal_newlines s')
  end.

(** [f.readlines()] on translated text: every line keeps its ["\n"]; the
    last line has none when the text does not end with one. *)
Fixpoint keepends (s : string) : list string :=
  match s with
  | EmptyString => []
  | String c s' =>
      if Ascii.eqb c LF then String LF EmptyString :: keepends s'
      else match keepends s' with
           | l :: ls => String c l :: ls
           | [] => [String c EmptyString]
           end
  end.

Definition readlines (raw : string) : list string :=
  keepends (universal_newlines raw).

(** A line without its line terminator. *)
Fixpoint chomp (l : string) : string :=
  match l with
  | EmptyString => EmptyString
  | String c l' =>
      match l' with
      | EmptyString => if Ascii.eqb c LF then EmptyString else l
      | _ => String c (chomp l')
      end
  end.

Definition nl : string := String LF EmptyString.

End Str.

(** ** Exceptions *)

(** The exceptions the code can raise.  The subclasses of [OSError]
    ([FileNotFoundError], [PermissionError], [NotADirectoryError], ...) are
    not told apart.  [UnicodeDecodeError] is a [ValueError] in Python; it is
    kept apart from the [ValueError] of [list.remove]. *)
Inductive exn := KeyError | ValueError | OSError | UnicodeDecodeError.

Inductive outcome (A : Type) :=
| Ret (a : A)
| Raise (e : exn).
Arguments Ret {A} a.
Arguments Raise {A} e.

Definition obind {A B} (x : outcome A) (k : A -> outcome B) : outcome B :=
  match x with
  | Ret a => k a
  | Raise e => Raise e
  end.

(** ** Constants *)

Abbreviation dict := (gmap string string).

Definition MODULE_ARGUMENTS : list string :=
  ["MAYAVERSION"; "PLATFORM"; "LOCALE"].

Definition MOD_EXTENSIONS : string := "mod".

(** ** parse_module_line *)

(** [l.remove(x)]: drops the first element equal to [x]; [ValueError] when
    there is none. *)
Fixpoint list_remove (x : string) (l : list string) : outcome (list string) :=
  match l with
  | [] => Raise ValueError
  | y :: l' =>
      if String.eqb y x then Ret l'
      else obind (list_remove x l') (fun r => Ret (y :: r))
  end.

(** The body of [for argument in MODULE_ARGUMENTS] for one [partition],
    acting on the list [partitions] and the dictionary [data]. *)
Fixpoint scan_arguments (arguments : list string) (partition : string)
    (st : list string * dict) : outcome (list string * dict) :=
  match arguments with
  | [] => Ret st
  | argument :: rest =>
      if negb (Str.startswith partition argument) then
        scan_arguments rest partition st
      else
        let data := <[argument := Str.drop (String.length argument + 1) partition]> (snd st) in
        obind (list_remove partition (fst st)) (fun partitions =>
        scan_arguments rest partition (partitions, data))
  end.

(** [for partition in reversed(partitions)].  [reversed] is a live iterator
    over the list being edited: it holds an index, starting at [len - 1];
    each step it stops when the index is outside the current list, else it
    yields the element at the index and decrements it.  [n] is the index
    plus one. *)
Fixpoint scan_reversed (n : nat) (st : list string * dict)
  : outcome (list string * dict) :=
  match n with
  | 0 => Ret st
  | S i =>
      match fst st !! i with
      | None => Ret st
      | Some partition =>
          obind (scan_arguments MODULE_ARGUMENTS partition st)
                (scan_reversed i)
      end
  end.

Definition is_marker (c : ascii) : bool :=
  Ascii.eqb c "+" || Ascii.eqb c "-".

Definition parse_module_line (line : string) : outcome (option dict) :=
  match line with
  | EmptyString => Ret None
  | String c _ =>
      if negb (is_marker c) then Ret None
      else
        let partitions := Str.split line in
        obind (scan_reversed (length partitions) (partitions, ∅))
          (fun '(partitions, data) =>
             match partitions with
             | [p0; p1; p2; p3] =>
                 Ret (Some (<["PATH" := p3]> (<["VERSION" := p2]>
                           (<["NAME" := p1]> (<["ENABLED" := p0]> data)))))
             | _ => Ret None
             end)
  end.

(** [if data:] on the result of [parse_module_line]: [None] and the empty
    dictionary are false. *)
Definition truthy (r : option dict) : bool :=
  match r with
  | Some d => negb (bool_decide (d = ∅))
  | None => false
  end.

(** [del d[key]] on a dictionary value. *)
Definition del_key (key : string) (d : dict) : outcome dict :=
  match d !! key with
  | Some _ => Ret (delete key d)
  | None => Raise KeyError
  end.

(** ** The world: dictionary objects and files *)

(** What goes wrong in the file operations of one call.  A file opened with
    mode ["w"] is truncated when it is opened; the text is written
    afterwards, and [fail_write n] lets [n] characters through.  With
    [fail_decode] the file opens, but its bytes are no text in the encoding
    it is read with. *)
Inductive io_fault :=
| no_fault
| fail_open_read
| fail_open_write
| fail_write (n : nat)
| fail_decode.

Record world := World {
  heap : gmap nat dict;
  disk : gmap string string;
  fault : io_fault;
}.

Definition set_heap (h : gmap nat dict) (w : world) : world :=
  World h (disk w) (fault w).
Definition set_disk (d : gmap string string) (w : world) : world :=
  World (heap w) d (fault w).

Definition M (A : Type) : Type := world -> outcome A * world.

Definition mret {A} (a : A) : M A := fun w => (Ret a, w).
Definition mraise {A} (e : exn) : M A := fun w => (Raise e, w).
Definition mbind {A B} (m : M A) (k : A -> M B) : M B :=
  fun w => match m w with
           | (Ret a, w') => k a w'
           | (Raise e, w') => (Raise e, w')
           end.
Definition lift {A} (x : outcome A) : M A := fun w => (x, w).

Notation "'do' x <- m ; k" := (mbind m (fun x => k))
  (at level 10, x name, m at level 100, k at level 200).

(** Reading a dictionary through its reference. *)
Definition dict_get (r : nat) : M dict :=
  fun w => match heap w !! r with
           | Some d => (Ret d, w)
           | None => (Raise KeyError, w)
           end.

(** [del r[key]]: the object itself is changed. *)
Definition dict_del (r : nat) (key : string) : M unit :=
  do d <- dict_get r;
  do d' <- lift (del_key key d);
  fun w => (Ret tt, set_heap (<[r := d']> (heap w)) w).

(** [r.copy()]: a new object with the same items. *)
Definition dict_copy (r : nat) : M nat :=
  do d <- dict_get r;
  fun w => let r' := fresh (dom (heap w)) in
           (Ret r', set_heap (<[r' := d]> (heap w)) w).

(** [open(path, "r")] followed by reading the whole text: opening raises
    [OSError]; reading decodes the bytes and raises [UnicodeDecodeError]
    when they are no text. *)
Definition open_read (path : string) : M string :=
  fun w => match fault w with
           | fail_open_read => (Raise OSError, w)
           | f => match disk w !! path with
                  | Some text =>
                      match f with
                      | fail_decode => (Raise UnicodeDecodeError, w)
                      | _ => (Ret text, w)
                      end
                  | None => (Raise OSError, w)
                  end
           end.

(** [open(path, "w")]: creates or truncates the file. *)
Definition open_write (path : string) : M unit :=
  fun w => match fault w with
           | fail_open_write => (Raise OSError, w)
           | _ => (Ret tt, set_disk (<[path := ""]> (disk w)) w)
           end.

(** [f.writelines(content)] and closing [f]: the text is appended to the
    open file; a failing write leaves what reached the file. *)
Definition writelines (path : string) (content : list string) : M unit :=
  fun w =>
    let old := default "" (disk w !! path) in
    let text := Str.concat content in
    match fault w with
    | fail_write n =>
        (Raise OSError, set_disk (<[path := old +:+ Str.take n text]> (disk w)) w)
    | _ => (Ret tt, set_disk (<[path := old +:+ text]> (disk w)) w)
    end.

(** ** read_module_file, filter_module_file *)

Definition read_module_file (file_path : string) : M (list string) :=
  do text <- open_read file_path;
  mret (map Str.strip (Str.readlines text)).

Fixpoint filter_lines (lines : list string) : outcome (list dict) :=
  match lines with
  | [] => Ret []
  | line :: rest =>
      obind (parse_module_line line) (fun data =>
      obind (filter_lines rest) (fun ds =>
        match data with
        | Some d => if truthy data then Ret (d :: ds) else Ret ds
        | None => Ret ds
        end))
  end.

Definition filter_module_file (file_path : string) : M (list dict) :=
  do lines <- read_module_file file_path;
  lift (filter_lines lines).

(** ** update_module_file *)

(** The comparison of one line with the caller's dictionary: [Some l'] is
    the replacement appended to [content], [None] stands for falling through
    to [content.append(line)]. *)
Definition update_line (enabled : string) (data : nat) (line : string)
  : M string :=
  do line_data <- lift (parse_module_line line);
  match line_data with
  | Some ld =>
      if truthy line_data then
        do ld' <- lift (del_key "ENABLED" ld);
        do d <- dict_get data;
        if bool_decide (d = ld') then mret (enabled +:+ Str.drop 1 line)
        else mret line
      else mret line
  | None => mret line
  end.

Fixpoint update_loop (enabled : string) (data : nat) (lines : list string)
    (content : list string) : M (list string) :=
  match lines with
  | [] => mret content
  | line :: rest =>
      do c <- update_line enabled data line;
      update_loop enabled data rest (content ++ [c])
  end.

Definition update_module_file (file_path : string) (state : bool) (data : nat)
  : M unit :=
  let enabled := if state then "+" else "-" in
  do _ <- dict_del data "ENABLED";
  do lines <- read_module_file file_path;
  do content <- update_loop enabled data lines [];
  let content := map (fun c => c +:+ Str.nl) content in
  do _ <- open_write file_path;
  writelines file_path content.

(** ** MayaModuleDetail *)

(** [enabled_state = data.get("ENABLED") == "+"] *)
Definition enabled_state (data : dict) : bool :=
  bool_decide (data !! "ENABLED" = Some "+").

(** [_emit_enabled_changed], with the slot the signal is connected to:
    [MayaModuleFile.update_module_file] calls [update_module_file] on the
    file's path. *)
Definition emit_enabled_changed (self_data : nat) (path : string)
    (state : bool) : M unit :=
  do data <- dict_copy self_data;
  update_module_file path state data.

(** The answers of [cmds.about]. *)
Record environment := Environment {
  about_version : string;
  about_operatingSystem : string;
  about_uiLanguage : string;
}.

Definition MAYA_ARGUMENTS (env : environment) : list (string * string) :=
  [("MAYAVERSION", about_version env);
   ("PLATFORM", about_operatingSystem env);
   ("LOCALE", about_uiLanguage env)].

Fixpoint is_compatible_items (items : list (string * string)) (data : dict)
  : bool :=
  match items with
  | [] => true
  | (key, value) :: rest =>
      match data !! key with
      | None => is_compatible_items rest data
      | Some v =>
          if negb (String.eqb v value) then false
          else is_compatible_items rest data
      end
  end.

Definition is_compatible (env : environment) (data : dict) : bool :=
  is_compatible_items (MAYA_ARGUMENTS env) data.

(** ** get_module_file_paths *)

(** What a path names: nothing (absent from the tree), a regular file, a
    directory with the names [os.listdir] returns, or a directory that
    [os.listdir] fails on (no permission to read it, an I/O error).  All of
    these but the first exist for [os.path.exists]. *)
Inductive node :=
| RegularFile
| Directory (names : list string)
| Unlistable.

(** The functions of [os.path] the locator calls; they depend on the
    platform. *)
Class OsPath := {
  join : string -> string -> string;
  normpath : string -> string;
  basename : string -> string;
}.

(** [f.lower().endswith(MOD_EXTENSIONS) and not f.startswith("moduleManager")] *)
Definition is_module_file (f : string) : bool :=
  Str.endswith (Str.lower f) MOD_EXTENSIONS
  && negb (Str.startswith f "moduleManager").

Section Locator.
Context `{OsPath}.
Variable tree : gmap string node.

Definition path_exists (path : string) : bool :=
  bool_decide (is_Some (tree !! path)).

Definition listdir (path : string) : outcome (list string) :=
  match tree !! path with
  | Some (Directory names) => Ret names
  | _ => Raise OSError
  end.

Fixpoint extend_modules (module_paths : list string) (modules : list string)
  : outcome (list string) :=
  match module_paths with
  | [] => Ret modules
  | path :: rest =>
      if negb (path_exists path) then extend_modules rest modules
      else
        obind (listdir path) (fun names =>
        extend_modules rest
          (modules ++ map (fun f => normpath (join path f))
                          (List.filter is_module_file names)))
  end.

(** [modules.sort(key=...)] is a stable sort that compares keys with [<];
    inserting from the right, before the first element whose key is not
    smaller, yields the same list. *)
Fixpoint insert_by_key (key : string -> string) (x : string)
    (l : list string) : list string :=
  match l with
  | [] => [x]
  | y :: l' =>
      if String.ltb (key y) (key x) then y :: insert_by_key key x l'
      else x :: l
  end.

Definition sort_by_key (key : string -> string) (l : list string)
  : list string :=
  foldr (insert_by_key key) [] l.

(** [module_paths] is what [get_module_paths] returns. *)
Definition get_module_file_paths (module_paths : list string)
  : outcome (list string) :=
  obind (extend_modules module_paths []) (fun modules =>
  Ret (sort_by_key basename modules)).

End Locator.

(** [os.path] on a POSIX platform, after [posixpath.py]. *)
Module PosixPath.

(** [s.split("/")] *)
Fixpoint split_slash (s : string) : list string :=
  match s with
  | EmptyString => [EmptyString]
  | String c s' =>
      if Ascii.eqb c "/" then EmptyString :: split_slash s'
      else match split_slash s' with
           | t :: ts => String c t :: ts
           | [] => [String c EmptyString]
           end
  end.

(** ["/".join(l)] *)
Fixpoint join_slash (l : list string) : string :=
  match l with
  | [] => EmptyString
  | [x] => x
  | x :: l' => x +:+ "/" +:+ join_slash l'
  end.

(** [p[p.rfind("/") + 1:]] *)
Fixpoint after_last_slash (acc s : string) : string :=
  match s with
  | EmptyString => acc
  | String c s' =>
      if Ascii.eqb c "/" then after_last_slash s' s'
      else after_last_slash acc s'
  end.

Definition posix_join (a b : string) : string :=
  if Str.startswith b "/" then b
  else if String.eqb a "" || Str.endswith a "/" then a +:+ b
  else a +:+ "/" +:+ b.

(** One round of the loop over the components in [normpath]. *)
Definition norm_step (initial_slashes : nat) (new_comps : list string)
    (comp : string) : list string :=
  if String.eqb comp "" || String.eqb comp "." then new_comps
  else if negb (String.eqb comp "..")
          || ((initial_slashes =? 0)%nat && (length new_comps =? 0)%nat)
          || match last new_comps with
             | Some top => String.eqb top ".."
             | None => false
             end
       then (new_comps ++ [comp])%list
       else removelast new_comps.

Definition posix_normpath (path : string) : string :=
  if String.eqb path "" then "."
  else
    let initial_slashes :=
      if Str.startswith path "/" then
        if Str.startswith path "//" && negb (Str.startswith path "///")
        then 2 else 1
      else 0 in
    let comps := fold_left (norm_step initial_slashes) (split_slash path) [] in
    let path := Str.concat (repeat "/" initial_slashes) +:+ join_slash comps in
    if String.eqb path "" then "." else path.

#[export] Instance posix : OsPath := {|
  join := posix_join;
  normpath := posix_normpath;
  basename := fun p => after_last_slash p p;
|}.

End PosixPath.

(** ** Notions the statements below use *)

(** Whether a token starts with one of [MODULE_ARGUMENTS], and with which. *)
Definition attr_key (t : string) : option string :=
  List.find (Str.startswith t) MODULE_ARGUMENTS.

Definition is_attr (t : string) : bool :=
  match attr_key t with Some _ => true | None => false end.

(** The tokens that are not keyed tokens, in line order. *)
Definition positional (tokens : list string) : list string :=
  List.filter (fun t => negb (is_attr t)) tokens.

(** The identity of a line: its parsed fields without [ENABLED]. *)
Definition identity (line : string) : option dict :=
  match parse_module_line line with
  | Ret (Some d) => Some (delete "ENABLED" d)
  | _ => None
  end.

(** The dictionary the reversed scan builds from the tokens of a line. *)
Definition attributes (tokens : list string) : dict :=
  match scan_reversed (length tokens) (tokens, ∅) with
  | Ret (_, data) => data
  | Raise _ => ∅
  end.

(** The token that supplies the value of key [k]: the first one, in line
    order, that starts with [k] and does not occur again further on. *)
Fixpoint winner (k : string) (tokens : list string) : option string :=
  match tokens with
  | [] => None
  | t :: rest =>
      if bool_decide (attr_key t = Some k) && negb (bool_decide (t ∈ rest))
      then Some t else winner k rest
  end.

(** Whether a line carries the given identity, and what the rewrite makes of
    a stripped line. *)
Definition matches (ident : dict) (line : string) : bool :=
  bool_decide (identity line = Some ident).

Definition starts_with_marker (line : string) : bool :=
  match line with
  | String c _ => is_marker c
  | EmptyString => false
  end.

(** The marker [update_module_file] writes for [state]. *)
Definition marker (state : bool) : string := if state then "+" else "-".

Definition rewrite_line (state : bool) (ident : dict) (line : string) : string :=
  if matches ident line then marker state +:+ Str.drop 1 line else line.

(** Lines written one per line, each closed by a single newline. *)
Definition unlines (content : list string) : string :=
  Str.concat (map (fun c => c +:+ Str.nl) content).

(** The text [update_module_file] hands to the file. *)
Definition rewritten (state : bool) (ident : dict) (src : string) : string :=
  unlines (map (rewrite_line state ident) (map Str.strip (Str.readlines src))).

(** Only whitespace. *)
Fixpoint all_space (s : string) : bool :=
  match s with
  | EmptyString => true
  | String c s' => Str.isspace c && all_space s'
  end.

(** A text with its line terminators normalised and nothing else changed. *)
Definition normalize_newlines (text : string) : string :=
  unlines (map Str.chomp (Str.readlines text)).

(** ** Statements and examples *)

(** The caller's record and a descriptor file used in the examples. *)
Definition tool_record : dict :=
  <["ENABLED" := "+"]> (<["NAME" := "Tool"]> (<["VERSION" := "1.0"]>
  (<["PATH" := "../content"]> (<["MAYAVERSION" := "2024"]> ∅)))).

Definition tool_record_off : dict := <["ENABLED" := "-"]> tool_record.

Definition tool_mod : string :=
  "// tools" +:+ Str.nl +:+
  "+ MAYAVERSION:2024 Tool 1.0 ../content" +:+ Str.nl +:+
  "MAYA_SCRIPT_PATH +:= scripts" +:+ Str.nl +:+
  "- Other 2.0 /opt/other" +:+ Str.nl.

Definition tool_world : world :=
  World {[ 0 := tool_record ]} {[ "/mods/tool.mod" := tool_mod ]} no_fault.

(** What the rewrite does to each line of the file: the source line is
    stripped, and then either kept or, when it carries the identity asked
    for, given the new marker as its first character. *)
Definition frame_property (path : string) (state : bool) (data : nat)
    (w : world) (d : dict) (src : string) : Prop :=
  let res := update_module_file path state data w in
  exists out,
    fst res = Ret tt
    /\ disk (snd res) = <[path := unlines out]> (disk w)
    /\ length out = length (Str.readlines src)
    /\ forall i raw, Str.readlines src !! i = Some raw ->
         (exists pre post, raw = pre +:+ Str.strip raw +:+ post
            /\ all_space pre = true /\ all_space post = true)
         /\ exists o, out !! i = Some o
              /\ (o = Str.strip raw
                  \/ exists c rest,
                       Str.strip raw = String c rest /\ is_marker c = true
                       /\ o = marker state +:+ rest
                       /\ identity (Str.strip raw) = Some (delete "ENABLED" d)).

(** How the rewrite picks its lines. *)
Definition matching_property (path : string) (state : bool) (data : nat)
    (w : world) (d : dict) (src : string) : Prop :=
  let res := update_module_file path state data w in
  let ident := delete "ENABLED" d in
  exists out,
    fst res = Ret tt
    /\ disk (snd res) = <[path := unlines out]> (disk w)
    /\ length out = length (Str.readlines src)
    /\ (forall c c' rest, is_marker c = true -> is_marker c' = true ->
          identity (String c rest) = identity (String c' rest))
    /\ (forall i raw, Str.readlines src !! i = Some raw ->
          identity (Str.strip raw) = Some ident ->
          out !! i = Some (marker state +:+ Str.drop 1 (Str.strip raw)))
    /\ (forall i raw, Str.readlines src !! i = Some raw ->
          identity (Str.strip raw) <> Some ident ->
          out !! i = Some (Str.strip raw))
    /\ ((forall raw, raw ∈ Str.readlines src ->
           identity (Str.strip raw) <> Some ident) ->
        out = map Str.strip (Str.readlines src)
        /\ ((forall raw, raw ∈ Str.readlines src ->
               Str.strip raw = Str.chomp raw) ->
            unlines out = normalize_newlines src)).

(** Writing a record's present state back. *)
Definition same_state_property (path : string) (data : nat) (w : world)
    (r : dict) (src : string) : Prop :=
  let res := update_module_file path (enabled_state r) data w in
  fst res = Ret tt
  /\ disk (snd res)
     = <[path := unlines (map Str.strip (Str.readlines src))]> (disk w)
  /\ ((forall raw, raw ∈ Str.readlines src -> Str.strip raw = Str.chomp raw) ->
      disk (snd res) = <[path := normalize_newlines src]> (disk w)).

(** What the rewrite does with a line that is no record. *)
Definition passthrough_property (path : string) (state : bool) (data : nat)
    (w : world) (src : string) : Prop :=
  let res := update_module_file path state data w in
  exists out,
    fst res = Ret tt
    /\ disk (snd res) = <[path := unlines out]> (disk w)
    /\ forall i raw, Str.readlines src !! i = Some raw ->
         starts_with_marker (Str.strip raw) = false
         \/ length (positional (Str.split (Str.strip raw))) <> 4 ->
         out !! i = Some (Str.strip raw).

(** What a record holds under the recognised keys. *)
Definition keyed_tokens_property (line : string) : Prop :=
  exists d, parse_module_line line = Ret (Some d)
    /\ forall k, k ∈ MODULE_ARGUMENTS ->
         ((exists t, t ∈ Str.split line /\ Str.startswith t k = true) ->
          is_Some (d !! k))
         /\ (forall v, d !! k = Some v ->
               exists t, t ∈ Str.split line /\ Str.startswith t k = true
                 /\ v = Str.drop (String.length k + 1) t)
         /\ d !! k
            = (fun t => Str.drop (String.length k + 1) t)
                <$> winner k (Str.split line).

(** What a failing file operation leaves behind. *)
Definition io_failure_property (path : string) (state : bool) (data : nat)
    (w : world) (d : dict) : Prop :=
  let res := update_module_file path state data w in
  fst res = Raise OSError
  /\ (fault w = fail_open_read \/ fault w = fail_open_write
      \/ disk w !! path = None ->
      disk (snd res) = disk w)
  /\ (forall n src,
        fault w = fail_write n -> disk w !! path = Some src ->
        disk (snd res)
        = <[path := Str.take n (rewritten state (delete "ENABLED" d) src)]>
            (disk w)).

Definition failing_world (f : io_fault) : world :=
  World {[ 0 := tool_record ]} {[ "/mods/tool.mod" := tool_mod ]} f.

(** What a call does to the dictionary it was given, and what the widget's
    own dictionary looks like after the signal was emitted. *)
Definition argument_mutation_property (path : string) (state : bool)
    (data : nat) (w : world) (d : dict) : Prop :=
  let res := update_module_file path state data w in
  let ui := emit_enabled_changed data path state w in
  heap (snd res) = <[data := delete "ENABLED" d]> (heap w)
  /\ (exists d', heap (snd res) !! data = Some d' /\ d' !! "ENABLED" = None)
  /\ (fault w = no_fault -> is_Some (disk w !! path) ->
      is_Some (d !! "ENABLED") -> fst res = Ret tt)
  /\ heap (snd ui) !! data = Some d.

(** The character [a] does not occur in [s]. *)
Fixpoint no_char (a : ascii) (s : string) : bool :=
  match s with
  | EmptyString => true
  | String c s' => negb (Ascii.eqb c a) && no_char a s'
  end.

(** The paths the directories contribute, in the order of the search list:
    one for each listed name that [is_module_file] accepts. *)
Definition candidates `{OsPath} (tree : gmap string node)
    (module_paths : list string) : list string :=
  flat_map (fun path =>
              match tree !! path with
              | Some (Directory names) =>
                  map (fun f => normpath (join path f))
                      (List.filter is_module_file names)
              | _ => []
              end) module_paths.

Definition key_le (key : string -> string) (a b : string) : Prop :=
  String.le (key a) (key b).

(** The directory entries the locator keeps, in the order of the search
    list: the search path and the listed name. *)
Definition entries (tree : gmap string node) (module_paths : list string)
  : list (string * string) :=
  flat_map (fun path =>
              match tree !! path with
              | Some (Directory names) =>
                  map (fun f => (path, f)) (List.filter is_module_file names)
              | _ => []
              end) module_paths.

(** The path the locator makes of an entry. *)
Definition entry_path `{OsPath} (e : string * string) : string :=
  normpath (join (fst e) (snd e)).

(** A component of a path: it holds no slash and is none of the empty
    name, [.] and [..]. *)
Definition plain (f : string) : Prop :=
  no_char "/" f = true /\ f <> "" /\ f <> "." /\ f <> "..".

(** A path that is the plain component [f], or ends in [f] after a slash. *)
Definition ends_with_name (p f : string) : Prop :=
  p = f \/ exists x, p = x +:+ String "/" f.

(** [os.listdir] returns names of directory entries: none holds a slash. *)
Definition plain_listings (tree : gmap string node) : Prop :=
  forall path names, tree !! path = Some (Directory names) ->
    Forall (fun f => no_char "/" f = true) names.

Definition name_le (a b : string * string) : Prop :=
  String.le (snd a) (snd b).

(** What the locator returns on a POSIX platform: [found] lists the entries
    behind the returned paths, in the order of the result. *)
Definition discovery_property (tree : gmap string node)
    (module_paths : list string) : Prop :=
  exists found : list (string * string),
    get_module_file_paths (H := PosixPath.posix) tree module_paths
    = Ret (map (entry_path (H := PosixPath.posix)) found)
    /\ found ≡ₚ entries tree module_paths
    /\ (forall path f, (path, f) ∈ found <->
          path ∈ module_paths
          /\ exists names,
               tree !! path = Some (Directory names)
               /\ f ∈ names
               /\ Str.endswith (Str.lower f) MOD_EXTENSIONS = true
               /\ Str.startswith f "moduleManager" = false)
    /\ (forall f, Str.endswith (Str.lower f) MOD_EXTENSIONS = true
          <-> exists stem a b c,
                f = stem +:+ String a (String b (String c ""))
                /\ (a = "m" \/ a = "M")%char
                /\ (b = "o" \/ b = "O")%char
                /\ (c = "d" \/ c = "D")%char)
    /\ Forall (fun e => basename (OsPath := PosixPath.posix)
                          (entry_path (H := PosixPath.posix) e) = snd e) found
    /\ StronglySorted name_le found
    /\ get_module_file_paths (H := PosixPath.posix) tree
         (List.filter (path_exists tree) module_paths)
       = Ret (map (entry_path (H := PosixPath.posix)) found).

(** The example of the specification: [/A] does not exist, [/B] holds three
    descriptor files, one of them the tool's own. *)
Definition example_tree : gmap string node :=
  {[ "/B" := Directory ["zzz.mod"; "aaa.MOD"; "moduleManagerControl.mod";
                        "notes.txt"];
     "/z" := Directory ["bbb.mod"] ]}.

(** ** Further functions of the module, and the notions their statements use *)

(** A line as [read_module_file] returns it: no whitespace at either end
    and no line terminator. *)
Definition clean (line : string) : Prop :=
  Str.lstrip line = line /\ Str.rstrip line = line
  /\ no_char Str.LF line = true /\ no_char Str.CR line = true.

(** The file after an update, read again. *)
Definition read_back_property (path : string) (state : bool) (data : nat)
    (w : world) (src : string) : Prop :=
  let w' := snd (update_module_file path state data w) in
  exists out,
    disk w' !! path = Some (unlines out)
    /\ read_module_file path w' = (Ret out, w')
    /\ length out = length (Str.readlines src)
    /\ Forall clean out.

(** Two updates in a row for one identity, through two dictionaries. *)
Definition last_write_property (path : string) (s1 s2 : bool)
    (data1 data2 : nat) (w : world) : Prop :=
  let w1 := snd (update_module_file path s1 data1 w) in
  let both := update_module_file path s2 data2 w1 in
  let direct := update_module_file path s2 data2 w in
  fst both = Ret tt
  /\ disk (snd both) = disk (snd direct)
  /\ (s1 = s2 -> disk (snd both) = disk w1).

(** A second call with the dictionary of the first. *)
Definition reuse_property (path : string) (s1 s2 : bool) (data : nat)
    (w : world) : Prop :=
  let w1 := snd (update_module_file path s1 data w) in
  update_module_file path s2 data w1 = (Raise KeyError, w1).

(** Switching a record and switching it back. *)
Definition toggle_back_property (path : string) (state : bool)
    (data1 data2 : nat) (w : world) : Prop :=
  let w1 := snd (update_module_file path (negb state) data1 w) in
  let back := update_module_file path state data2 w1 in
  fst back = Ret tt /\ disk (snd back) = disk w.

(** The record of a line, if it has one. *)
Definition record_of (line : string) : option dict :=
  match parse_module_line line with
  | Ret (Some d) => Some d
  | _ => None
  end.

Fixpoint no_space (s : string) : bool :=
  match s with
  | EmptyString => true
  | String c s' => negb (Str.isspace c) && no_space s'
  end.

(** A whitespace-delimited token: not empty, no whitespace. *)
Definition token (t : string) : Prop := t <> "" /\ no_space t = true.

(** The keys [parse_module_line] fills from the positional tokens. *)
Definition POSITIONAL_KEYS : list string := ["ENABLED"; "NAME"; "VERSION"; "PATH"].

(** What every record looks like. *)
Definition record_shape (r : dict) : Prop :=
  (forall key, key ∈ POSITIONAL_KEYS -> exists v, r !! key = Some v /\ token v)
  /\ (forall key, is_Some (r !! key) ->
        key ∈ (POSITIONAL_KEYS ++ MODULE_ARGUMENTS)%list)
  /\ (forall key v, key ∈ MODULE_ARGUMENTS -> r !! key = Some v ->
        no_space v = true)
  /\ (exists c tok, r !! "ENABLED" = Some (String c tok) /\ is_marker c = true).

Definition filter_records_property (path : string) (w : world) : Prop :=
  let res := filter_module_file path w in
  snd res = w
  /\ (fault w = fail_open_read \/ disk w !! path = None ->
      fst res = Raise OSError)
  /\ (fault w = fail_decode -> is_Some (disk w !! path) ->
      fst res = Raise UnicodeDecodeError)
  /\ (forall src, fault w <> fail_open_read -> fault w <> fail_decode ->
        disk w !! path = Some src ->
        exists recs,
          fst res = Ret recs
          /\ recs = omap record_of (map Str.strip (Str.readlines src))
          /\ length recs <= length (Str.readlines src)
          /\ Forall record_shape recs).

(** The records of a file before and after an update. *)
Definition records_kept_property (path : string) (state : bool) (data : nat)
    (w : world) (d : dict) : Prop :=
  let w' := snd (update_module_file path state data w) in
  exists recs recs',
    filter_module_file path w = (Ret recs, w)
    /\ filter_module_file path w' = (Ret recs', w')
    /\ Forall2 (fun r r' =>
                  delete "ENABLED" r' = delete "ENABLED" r
                  /\ (delete "ENABLED" r = delete "ENABLED" d ->
                      exists c tok,
                        r !! "ENABLED" = Some (String c tok)
                        /\ r' !! "ENABLED" = Some (marker state +:+ tok))
                  /\ (delete "ENABLED" r <> delete "ENABLED" d -> r' = r))
               recs recs'.

(** Two emissions of [enabled_changed] by one widget. *)
Definition emit_twice_property (self_data : nat) (path : string)
    (s1 s2 : bool) (w : world) : Prop :=
  let first := emit_enabled_changed self_data path s1 w in
  let second := emit_enabled_changed self_data path s2 (snd first) in
  let direct := emit_enabled_changed self_data path s2 w in
  fst first = Ret tt
  /\ fst second = Ret tt
  /\ heap (snd second) !! self_data = heap w !! self_data
  /\ disk (snd second) = disk (snd direct).

(** Paths with one base name, in the order the locator returns them. *)
Definition stable_order_property `{OsPath} (tree : gmap string node)
    (module_paths : list string) : Prop :=
  exists modules,
    get_module_file_paths tree module_paths = Ret modules
    /\ forall name,
         List.filter (fun x => String.eqb (basename x) name) modules
         = List.filter (fun x => String.eqb (basename x) name)
             (candidates tree module_paths).

(** [s.split(sep)] for a separator of one character. *)
Fixpoint split_on (sep : ascii) (s : string) : list string :=
  match s with
  | EmptyString => [EmptyString]
  | String c s' =>
      if Ascii.eqb c sep then EmptyString :: split_on sep s'
      else match split_on sep s' with
           | t :: ts => String c t :: ts
           | [] => [String c EmptyString]
           end
  end.

(** [sep.join(l)] *)
Fixpoint join_on (sep : ascii) (l : list string) : string :=
  match l with
  | [] => EmptyString
  | x :: l' =>
      match l' with
      | [] => x
      | _ => x +:+ String sep (join_on sep l')
      end
  end.

(** [os.environ["MAYA_MODULE_PATH"].split(os.pathsep)] *)
Definition get_module_paths (pathsep : ascii) (environ : gmap string string)
  : outcome (list string) :=
  match environ !! "MAYA_MODULE_PATH" with
  | Some value => Ret (split_on pathsep value)
  | None => Raise KeyError
  end.

Definition backslash : ascii := ascii_of_nat 92.

(** [s.replace(old, new)] for single characters. *)
Fixpoint replace_char (old new : ascii) (s : string) : string :=
  match s with
  | EmptyString => EmptyString
  | String c s' =>
      String (if Ascii.eqb c old then new else c) (replace_char old new s')
  end.

(** The loop of [get_icon_path] over the directories of XBMLANGPATH; a
    loop that ends without [return] yields [None]. *)
Fixpoint find_icon `{OsPath} (tree : gmap string node)
    (directories : list string) (file_name : string) : option string :=
  match directories with
  | [] => None
  | directory :: rest =>
      let file_path := join directory file_name in
      if path_exists tree file_path
      then Some (replace_char backslash "/" file_path)
      else find_icon tree rest file_name
  end.

Definition get_icon_path `{OsPath} (pathsep : ascii)
    (environ : gmap string string) (tree : gmap string node)
    (file_name : string) : outcome (option string) :=
  match environ !! "XBMLANGPATH" with
  | Some value => Ret (find_icon tree (split_on pathsep value) file_name)
  | None => Raise KeyError
  end.

Definition module_paths_property (pathsep : ascii)
    (environ : gmap string string) : Prop :=
  match environ !! "MAYA_MODULE_PATH" with
  | None => get_module_paths pathsep environ = Raise KeyError
  | Some value =>
      exists paths,
        get_module_paths pathsep environ = Ret paths
        /\ paths <> []
        /\ join_on pathsep paths = value
        /\ Forall (fun p => no_char pathsep p = true) paths
        /\ (forall l, l <> [] -> Forall (fun p => no_char pathsep p = true) l ->
              join_on pathsep l = value -> l = paths)
  end.

Definition icon_path_property `{OsPath} (pathsep : ascii)
    (environ : gmap string string) (tree : gmap string node)
    (file_name value : string) : Prop :=
  let dirs := split_on pathsep value in
  exists r,
    get_icon_path pathsep environ tree file_name = Ret r
    /\ (r = None <->
        Forall (fun d => path_exists tree (join d file_name) = false) dirs)
    /\ (forall p, r = Some p ->
          no_char backslash p = true
          /\ exists i d,
               dirs !! i = Some d
               /\ path_exists tree (join d file_name) = true
               /\ p = replace_char backslash "/" (join d file_name)
               /\ forall j d', j < i -> dirs !! j = Some d' ->
                    path_exists tree (join d' file_name) = false).

(** The further functions of [os.path] that [get_path] calls; [abspath]
    reads the current directory. *)
Class OsPathAbs := {
  isabs : string -> bool;
  dirname : string -> string;
  abspath : string -> string;
}.

(** [get_path] returns a path or, when the record has no PATH, fails in
    [os.path.isabs(None)]. *)
Inductive path_result :=
| Path (p : string)
| RaiseTypeError.

(** [parent_path] is [self.parent().path], the path of the descriptor
    file. *)
Definition get_path `{OsPath} `{OsPathAbs} (parent_path : string)
    (data : dict) : path_result :=
  match data !! "PATH" with
  | None => RaiseTypeError
  | Some path =>
      let path :=
        if negb (isabs path)
        then abspath (join (dirname parent_path) path)
        else path in
      Path (normpath path)
  end.

(** [isabs], [dirname] and [abspath] of [posixpath.py]; [cwd] is what
    [os.getcwd()] returns. *)
Module PosixAbs.

(** [p[:p.rfind("/") + 1]] *)
Fixpoint upto_last_slash (p : string) : string :=
  match p with
  | EmptyString => EmptyString
  | String c p' =>
      if Ascii.eqb c "/" || negb (no_char "/" p')
      then String c (upto_last_slash p') else EmptyString
  end.

(** [s == "/" * len(s)] *)
Fixpoint all_slashes (s : string) : bool :=
  match s with
  | EmptyString => true
  | String c s' => Ascii.eqb c "/" && all_slashes s'
  end.

(** [s.rstrip("/")] *)
Fixpoint rstrip_slash (s : string) : string :=
  match s with
  | EmptyString => EmptyString
  | String c s' =>
      match rstrip_slash s' with
      | EmptyString => if Ascii.eqb c "/" then EmptyString else String c EmptyString
      | r => String c r
      end
  end.

Definition posix_isabs (s : string) : bool := Str.startswith s "/".

Definition posix_dirname (p : string) : string :=
  let head := upto_last_slash p in
  if negb (String.eqb head "") && negb (all_slashes head)
  then rstrip_slash head else head.

Definition posix_abspath (cwd : string) (path : string) : string :=
  PosixPath.posix_normpath
    (if negb (posix_isabs path) then PosixPath.posix_join cwd path else path).

Definition posix_abs (cwd : string) : OsPathAbs := {|
  isabs := posix_isabs;
  dirname := posix_dirname;
  abspath := posix_abspath cwd;
|}.

End PosixAbs.

(** What [normpath] makes of an absolute path: one or two slashes and then
    plain components. *)
Definition normal_form (i : nat) (cs : list string) : string :=
  Str.concat (repeat "/" i) +:+ PosixPath.join_slash cs.

(** The path [get_path] returns on a POSIX platform: the record's PATH when
    it is absolute, and otherwise the PATH joined to the directory of the
    descriptor file; normalised in both cases. *)
Definition content_path_property (cwd parent_path : string) (data : dict)
    (path : string) : Prop :=
  let resolved :=
    PosixPath.posix_normpath
      (if PosixAbs.posix_isabs path then path
       else PosixPath.posix_join (PosixAbs.posix_dirname parent_path) path) in
  get_path (H := PosixPath.posix) (H0 := PosixAbs.posix_abs cwd)
    parent_path data = Path resolved
  /\ PosixAbs.posix_isabs resolved = true
  /\ PosixPath.posix_normpath resolved = resolved
  /\ forall cwd',
       get_path (H := PosixPath.posix) (H0 := PosixAbs.posix_abs cwd')
         parent_path data = Path resolved.

(** [manage_module_details] on the widgets [add_module_details] made, one
    for each record of the file: which of them it shows. *)
Definition manage_module_details (env : environment) (state : bool)
    (details : list dict) : list bool :=
  map (fun data => if state then true else is_compatible env data) details.

(** A line of a text as [readlines] returns it: it holds no line feed but,
    possibly, one at its end. *)
Definition raw_line (raw : string) : Prop :=
  exists body, no_char Str.LF body = true
    /\ (raw = body \/ raw = body +:+ Str.nl).

(** [line] is [raw] without the whitespace at its two ends. *)
Definition stripped (raw line : string) : Prop :=
  clean line
  /\ exists pre post,
       raw = pre +:+ line +:+ post
       /\ all_space pre = true /\ all_space post = true.

Definition read_lines_property (path : string) (w : world) : Prop :=
  let res := read_module_file path w in
  snd res = w
  /\ (fault w = fail_open_read \/ disk w !! path = None ->
      fst res = Raise OSError)
  /\ (fault w = fail_decode -> is_Some (disk w !! path) ->
      fst res = Raise UnicodeDecodeError)
  /\ (forall src, fault w <> fail_open_read -> fault w <> fail_decode ->
        disk w !! path = Some src ->
        let raws := Str.readlines src in
        exists lines,
          fst res = Ret lines
          /\ Forall2 stripped raws lines
          /\ Str.concat raws = Str.universal_newlines src
          /\ Forall raw_line raws
          /\ (forall i raw, raws !! i = Some raw ->
                raw <> ""
                /\ (S i < length raws -> exists body, raw = body +:+ Str.nl))
          /\ Forall (fun line => Str.strip line = line) lines).

Definition visibility_kept_property (path : string) (state : bool)
    (data : nat) (w : world) : Prop :=
  let w' := snd (update_module_file path state data w) in
  exists recs recs',
    filter_module_file path w = (Ret recs, w)
    /\ filter_module_file path w' = (Ret recs', w')
    /\ length recs' = length recs
    /\ forall env show_all,
         manage_module_details env show_all recs'
         = manage_module_details env show_all recs.

Definition two_dict_world : world :=
  World {[ 0 := tool_record; 1 := tool_record ]}
        {[ "/mods/tool.mod" := tool_mod ]} no_fault.

Definition shadow_tree : gmap string node :=
  {[ "/site" := Directory ["tool.mod"; "zeta.mod"];
     "/user" := Directory ["alpha.mod"; "tool.mod"] ]}.

Definition icon_environ : gmap string string :=
  {[ "XBMLANGPATH" := "/icons:/opt/maya/icons" ]}.

Definition icon_tree : gmap string node :=
  {[ "/opt/maya/icons/MM_icon.png" := RegularFile ]}.

(** ** The string functions on small inputs *)

Example split_example :
  Str.split "  + Tool   1.0 ../content " = ["+"; "Tool"; "1.0"; "../content"].
Proof. reflexivity. Qed.

Example strip_example : Str.strip "  a b  " +:+ "|" = "a b|".
Proof. reflexivity. Qed.

Example readlines_example :
  Str.readlines ("a" +:+ String Str.CR Str.nl +:+ "b" +:+ String Str.CR "c"
                 +:+ Str.nl +:+ Str.nl +:+ "d")
  = ["a" +:+ Str.nl; "b" +:+ Str.nl; "c" +:+ Str.nl; Str.nl; "d"].
Proof. reflexivity. Qed.

(** A marker glued to the name leaves three positional tokens: no record. *)
Example parse_glued_marker :
  parse_module_line "-Tool 1.0 ../content MAYAVERSION=2024" = Ret None.
Proof. vm_compute. reflexivity. Qed.

(** ** Facts about the parser *)

Section Parser.

Lemma startswith_head p a k :
  Str.startswith p (String a k) = true -> exists p', p = String a p'.
Proof.
  unfold Str.startswith. destruct p as [|b p']; simpl; [discriminate|].
  destruct (ascii_dec a b) as [->|]; [eauto|discriminate].
Qed.

Lemma is_marker_cases c : is_marker c = true -> c = "+"%char \/ c = "-"%char.
Proof.
  unfold is_marker. intros [E|E]%orb_true_iff; apply Ascii.eqb_eq in E; auto.
Qed.

(** A token that begins with a marker is not a keyed token. *)
Lemma marker_not_attr c t : is_marker c = true -> is_attr (String c t) = false.
Proof.
  intros [-> | ->]%is_marker_cases; reflexivity.
Qed.

Lemma attr_key_in t k : attr_key t = Some k -> k ∈ MODULE_ARGUMENTS.
Proof.
  unfold attr_key. intros E. apply List.find_some in E as [E _].
  by apply list_elem_of_In.
Qed.

Lemma attr_key_startswith t k :
  attr_key t = Some k -> Str.startswith t k = true.
Proof.
  unfold attr_key. intros E. by apply List.find_some in E as [_ E].
Qed.

(** No two recognised keys begin alike, so the inner loop fires at most
    once per token. *)
Lemma scan_arguments_spec p l d :
  scan_arguments MODULE_ARGUMENTS p (l, d)
  = match attr_key p with
    | None => Ret (l, d)
    | Some k =>
        obind (list_remove p l) (fun l' =>
          Ret (l', <[k := Str.drop (String.length k + 1) p]> d))
    end.
Proof.
  unfold attr_key, MODULE_ARGUMENTS.
  cbn [scan_arguments List.find fst snd].
  destruct (Str.startswith p "MAYAVERSION") eqn:E1; cbn [negb].
  { apply startswith_head in E1 as [p' ->].
    change (Str.startswith (String "M" p') "PLATFORM") with false.
    change (Str.startswith (String "M" p') "LOCALE") with false.
    cbn [negb]. by destruct (list_remove _ l). }
  destruct (Str.startswith p "PLATFORM") eqn:E2; cbn [negb].
  { apply startswith_head in E2 as [p' ->].
    change (Str.startswith (String "P" p') "LOCALE") with false.
    cbn [negb]. by destruct (list_remove _ l). }
  destruct (Str.startswith p "LOCALE") eqn:E3; cbn [negb]; [|done].
  by destruct (list_remove _ l).
Qed.

(** Removing the value found at index [i] deletes an element at or before
    [i]: what lies beyond [i] moves one step down, unchanged. *)
Lemma list_remove_lookup l i p :
  l !! i = Some p ->
  exists l', list_remove p l = Ret l'
    /\ S (length l') = length l
    /\ drop i l' = drop (S i) l
    /\ (is_attr p = true -> positional l' = positional l)
    /\ (forall t, t <> p -> t ∈ take i l -> t ∈ take i l')
    /\ (forall t, t ∈ l' -> t ∈ l).
Proof.
  revert i. induction l as [|y l IH]; intros i Hi; [done|].
  cbn [list_remove]. destruct (String.eqb_spec y p) as [->|Hne].
  - exists l. split_and!; try done.
    + intros Ha. unfold positional. cbn [List.filter]. by rewrite Ha.
    + intros t Hne. destruct i as [|i]; [done|]. cbn.
      intros [?|Ht]%elem_of_cons; [done|].
      apply elem_of_take in Ht as (j & Hj & Hlt).
      apply elem_of_take. exists j. split; [done|lia].
    + intros t Ht. by right.
  - destruct i as [|i]; [simplify_eq/=|]. cbn in Hi.
    destruct (IH i Hi) as (l' & -> & Hlen & Hdrop & Hpos & Hin & Hsub).
    exists (y :: l'). cbn. split_and!; try done.
    + by rewrite Hlen.
    + intros Ha. unfold positional in *. cbn [List.filter].
      by rewrite (Hpos Ha).
    + intros t Hnp [->|Ht]%elem_of_cons; [left|right; auto].
    + intros t [->|Ht]%elem_of_cons; [left|right; auto].
Qed.

(** The reversed scan leaves exactly the positional tokens, whatever the
    number of keyed tokens and however often a key or a token repeats. *)
Lemma scan_reversed_spec n l d :
  n <= length l ->
  (forall t, t ∈ drop n l -> is_attr t = false) ->
  exists d', scan_reversed n (l, d) = Ret (positional l, d')
    /\ (forall k v, d' !! k = Some v ->
          d !! k = Some v
          \/ exists t, t ∈ l /\ attr_key t = Some k
               /\ v = Str.drop (String.length k + 1) t)
    /\ (forall k, is_Some (d !! k) -> is_Some (d' !! k))
    /\ (forall t k, t ∈ take n l -> attr_key t = Some k -> is_Some (d' !! k)).
Proof.
  revert l d. induction n as [|i IH]; intros l d Hn Htail.
  - cbn. exists d. split_and!; eauto.
    + f_equal. f_equal. unfold positional.
      rewrite drop_0 in Htail. clear Hn.
      induction l as [|t l IHl]; [done|]. cbn.
      rewrite (Htail t) by left. cbn. f_equal. apply IHl.
      intros t' Ht'. apply Htail. by right.
    + intros t k Ht. by apply elem_of_nil in Ht.
  - cbn [scan_reversed fst].
    destruct (lookup_lt_is_Some_2 l i) as [p Hp]; [lia|]. rewrite Hp.
    rewrite scan_arguments_spec.
    destruct (attr_key p) as [k|] eqn:Hk.
    + destruct (list_remove_lookup l i p Hp)
        as (l' & -> & Hlen & Hdrop & Hpos & Hin & Hsub). cbn [obind].
      destruct (IH l' (<[k := Str.drop (String.length k + 1) p]> d))
        as (d' & -> & Hval & Hkeep & Hall).
      { lia. }
      { rewrite Hdrop. done. }
      rewrite Hpos by (unfold is_attr; by rewrite Hk).
      exists d'. split_and!; [done|..].
      * intros k' v Hv. destruct (Hval k' v Hv) as [Hd|(t & Ht & Hkt & ->)].
        -- destruct (decide (k = k')) as [<-|Hne].
           ++ rewrite lookup_insert_eq in Hd. simplify_eq. right.
              exists p. split_and!; try done. by eapply list_elem_of_lookup_2.
           ++ rewrite lookup_insert_ne in Hd by done. by left.
        -- right. exists t. eauto.
      * intros k' Hs. apply Hkeep. destruct (decide (k = k')) as [<-|Hne].
        -- rewrite lookup_insert_eq. eauto.
        -- by rewrite lookup_insert_ne.
      * intros t k' Ht Hkt.
        rewrite (take_S_r l i p Hp) in Ht.
        apply elem_of_app in Ht as [Ht|Ht%list_elem_of_singleton].
        -- destruct (decide (t = p)) as [->|Hne].
           ++ simplify_eq. apply Hkeep. rewrite lookup_insert_eq. eauto.
           ++ apply (Hall t k'); [|done].
              by apply Hin.
        -- subst t. simplify_eq. apply Hkeep. rewrite lookup_insert_eq. eauto.
    + cbn [obind]. destruct (IH l d) as (d' & -> & Hval & Hkeep & Hall).
      { lia. }
      { intros t Ht. rewrite (drop_S l p i Hp) in Ht.
        apply elem_of_cons in Ht as [->|Ht]; [|by apply Htail].
        unfold is_attr. by rewrite Hk. }
      exists d'. split_and!; try done.
      intros t k' Ht Hkt. rewrite (take_S_r l i p Hp) in Ht.
      apply elem_of_app in Ht as [Ht|Ht%list_elem_of_singleton].
      * by apply (Hall t k').
      * subst t. congruence.
Qed.

Lemma split_head c rest :
  Str.isspace c = false ->
  exists t ts, Str.split (String c rest) = String c t :: ts.
Proof.
  intros Hc. cbn [Str.split]. rewrite Hc.
  destruct rest as [|c' rest']; [eauto|].
  destruct (Str.isspace c'); [eauto|].
  destruct (Str.split (String c' rest')); eauto.
Qed.

Lemma marker_not_space c : is_marker c = true -> Str.isspace c = false.
Proof. intros [-> | ->]%is_marker_cases; reflexivity. Qed.

Lemma scan_reversed_tokens tokens :
  scan_reversed (length tokens) (tokens, ∅)
  = Ret (positional tokens, attributes tokens).
Proof.
  unfold attributes.
  destruct (scan_reversed_spec (length tokens) tokens ∅) as (d' & -> & _).
  - done.
  - rewrite drop_all. by intros t Ht%elem_of_nil.
  - done.
Qed.

(** The parser as a function of the tokens: it never raises, and yields a
    record exactly for a marker-led line with four positional tokens. *)
Lemma parse_module_line_spec line :
  parse_module_line line
  = Ret (if starts_with_marker line then
           match positional (Str.split line) with
           | [p0; p1; p2; p3] =>
               Some (<["PATH" := p3]> (<["VERSION" := p2]>
                    (<["NAME" := p1]> (<["ENABLED" := p0]>
                    (attributes (Str.split line))))))
           | _ => None
           end
         else None).
Proof.
  unfold parse_module_line, starts_with_marker.
  destruct line as [|c rest]; [done|].
  destruct (is_marker c); cbn [negb]; [|done].
  rewrite scan_reversed_tokens. cbn [obind].
  by destruct (positional _) as [|? [|? [|? [|? [|? ?]]]]].
Qed.

Lemma parse_module_line_total line : exists r, parse_module_line line = Ret r.
Proof. rewrite parse_module_line_spec. eauto. Qed.

Lemma parse_module_line_Some line d :
  parse_module_line line = Ret (Some d) ->
  starts_with_marker line = true
  /\ exists p0 p1 p2 p3,
       positional (Str.split line) = [p0; p1; p2; p3]
       /\ d = <["PATH" := p3]> (<["VERSION" := p2]>
              (<["NAME" := p1]> (<["ENABLED" := p0]>
              (attributes (Str.split line))))).
Proof.
  rewrite parse_module_line_spec. intros [= E].
  destruct (starts_with_marker line); [|done]. split; [done|].
  destruct (positional _) as [|p0 [|p1 [|p2 [|p3 [|? ?]]]]]; try done.
  exists p0, p1, p2, p3. by simplify_eq.
Qed.

Lemma parse_module_line_enabled line d :
  parse_module_line line = Ret (Some d) -> is_Some (d !! "ENABLED").
Proof.
  intros (_ & p0 & p1 & p2 & p3 & _ & ->)%parse_module_line_Some.
  exists p0. by simplify_map_eq.
Qed.

Lemma attributes_lookup tokens k :
  (forall v, attributes tokens !! k = Some v ->
     exists t, t ∈ tokens /\ attr_key t = Some k
       /\ v = Str.drop (String.length k + 1) t)
  /\ (forall t, t ∈ tokens -> attr_key t = Some k ->
        is_Some (attributes tokens !! k)).
Proof.
  unfold attributes.
  destruct (scan_reversed_spec (length tokens) tokens ∅)
    as (d' & -> & Hval & _ & Hall).
  - done.
  - rewrite drop_all. by intros t Ht%elem_of_nil.
  - split.
    + intros v Hv. destruct (Hval k v Hv) as [Hd|?]; [|done].
      by rewrite lookup_empty in Hd.
    + intros t Ht Hk. apply (Hall t k); [|done]. by rewrite firstn_all.
Qed.

Lemma split_cons c s :
  Str.split (String c s)
  = if Str.isspace c then Str.split s
    else match s with
         | EmptyString => [String c EmptyString]
         | String c' _ =>
             if Str.isspace c' then String c EmptyString :: Str.split s
             else match Str.split s with
                  | t :: ts => String c t :: ts
                  | [] => [String c EmptyString]
                  end
         end.
Proof. reflexivity. Qed.

(** The tokens of a line that begins with a non-blank character depend on
    that character only through the head of the first token. *)
Lemma split_head_uniform rest :
  exists t ts, forall c,
    Str.isspace c = false -> Str.split (String c rest) = String c t :: ts.
Proof.
  destruct rest as [|c' rest'].
  - exists "", []. intros c Hc. by rewrite split_cons, Hc.
  - destruct (Str.isspace c') eqn:Hc'.
    + exists "", (Str.split (String c' rest')). intros c Hc.
      by rewrite (split_cons c), Hc, Hc'.
    + destruct (Str.split (String c' rest')) as [|t ts] eqn:Hsp.
      * exists "", []. intros c Hc. by rewrite (split_cons c), Hc, Hc', Hsp.
      * exists t, ts. intros c Hc. by rewrite (split_cons c), Hc, Hc', Hsp.
Qed.

(** A positional token at the head of the list stays where it is and has no
    part in the scan of the others. *)
Lemma scan_reversed_cons t0 n l d :
  is_attr t0 = false ->
  scan_reversed (S n) (t0 :: l, d)
  = obind (scan_reversed n (l, d)) (fun st => Ret (t0 :: fst st, snd st)).
Proof.
  intros Ht0. revert l d. induction n as [|m IH]; intros l d.
  - cbn [scan_reversed fst]. cbn [lookup list_lookup].
    rewrite scan_arguments_spec. unfold is_attr in Ht0.
    by destruct (attr_key t0).
  - change (scan_reversed (S (S m)) (t0 :: l, d))
      with (match l !! m with
            | Some partition =>
                obind (scan_arguments MODULE_ARGUMENTS partition (t0 :: l, d))
                      (scan_reversed (S m))
            | None => Ret (t0 :: l, d)
            end).
    cbn [scan_reversed fst]. destruct (l !! m) as [p|]; [|done].
    rewrite !scan_arguments_spec. destruct (attr_key p) as [k|] eqn:Hk.
    + cbn [list_remove]. destruct (String.eqb_spec t0 p) as [->|_].
      { unfold is_attr in Ht0. by rewrite Hk in Ht0. }
      destruct (list_remove p l) as [l'|]; [|done]. cbn [obind]. apply IH.
    + cbn [obind]. apply IH.
Qed.

Lemma attributes_cons t0 ts :
  is_attr t0 = false -> attributes (t0 :: ts) = attributes ts.
Proof.
  intros Ht0. unfold attributes at 1. cbn [length].
  rewrite (scan_reversed_cons t0 _ _ _ Ht0), scan_reversed_tokens. done.
Qed.

Lemma positional_cons t0 ts :
  is_attr t0 = false -> positional (t0 :: ts) = t0 :: positional ts.
Proof. intros Ht0. unfold positional. cbn [List.filter]. by rewrite Ht0. Qed.

(** Two lines that differ in their marker only have the same identity. *)
Lemma identity_marker_irrelevant c c' rest :
  is_marker c = true -> is_marker c' = true ->
  identity (String c rest) = identity (String c' rest).
Proof.
  intros Hc Hc'. unfold identity. rewrite !parse_module_line_spec.
  cbn [starts_with_marker]. rewrite Hc, Hc'.
  destruct (split_head_uniform rest) as (t & ts & Hs).
  rewrite (Hs c (marker_not_space c Hc)), (Hs c' (marker_not_space c' Hc')).
  rewrite !positional_cons, !attributes_cons by by apply marker_not_attr.
  destruct (positional ts) as [|p1 [|p2 [|p3 [|? ?]]]]; try done.
  f_equal. apply map_eq. intros k.
  destruct (decide (k = "ENABLED")) as [->|Hk].
  - by rewrite !lookup_delete_eq.
  - rewrite !lookup_delete_ne by done. rewrite !lookup_insert.
    repeat case_decide; congruence.
Qed.

Lemma winner_app_other k P p :
  attr_key p <> Some k -> winner k (P ++ [p]) = winner k P.
Proof.
  intros Hp. induction P as [|t P IH]; cbn [app winner].
  - by rewrite bool_decide_eq_false_2.
  - rewrite IH. destruct (decide (attr_key t = Some k)) as [Ht|Ht].
    + assert (t <> p) as Hne by congruence.
      rewrite (bool_decide_ext (t ∈ (P ++ [p])%list) (t ∈ P)); [done|].
      rewrite elem_of_app, list_elem_of_singleton. intuition congruence.
    + by rewrite (bool_decide_eq_false_2 _ Ht).
Qed.

Lemma winner_app_fresh k P p :
  attr_key p = Some k -> p ∉ P ->
  winner k (P ++ [p]) = Some (default p (winner k P)).
Proof.
  intros Hp. induction P as [|t P IH]; intros Hnot; cbn [app winner].
  - rewrite bool_decide_eq_true_2 by done.
    rewrite bool_decide_eq_false_2; [done|]. by intros ?%elem_of_nil.
  - apply not_elem_of_cons in Hnot as [Hne Hnot].
    rewrite (bool_decide_ext (t ∈ (P ++ [p])%list) (t ∈ P)).
    + destruct (bool_decide (attr_key t = Some k) && negb (bool_decide (t ∈ P)));
        [done|by apply IH].
    + rewrite elem_of_app, list_elem_of_singleton. intuition congruence.
Qed.

Lemma winner_app_last k P p :
  attr_key p = Some k -> is_Some (winner k (P ++ [p])).
Proof.
  intros Hp. induction P as [|t P IH]; cbn [app winner].
  - rewrite bool_decide_eq_true_2 by done.
    rewrite bool_decide_eq_false_2; [eauto|]. by intros ?%elem_of_nil.
  - destruct (_ && _); eauto.
Qed.

(** The effect of [remove] on the part of the list the scan has yet to
    visit. *)
Lemma list_remove_take l i p l1 :
  l !! i = Some p -> list_remove p l = Ret l1 ->
  (forall t, t <> p -> t ∈ take i l1 <-> t ∈ take i l)
  /\ (forall k, winner k (take i l1)
               = if bool_decide (p ∈ take i l)
                 then winner k (take i l ++ [p]) else winner k (take i l)).
Proof.
  revert i l1. induction l as [|y l IH]; intros i l1 Hi Hrm; [done|].
  cbn [list_remove] in Hrm. destruct (String.eqb_spec y p) as [->|Hne].
  - injection Hrm as <-. destruct i as [|i].
    + split; [done|]. intros k. cbn [take].
      rewrite bool_decide_eq_false_2; [done|]. by intros ?%elem_of_nil.
    + cbn in Hi. split.
      * intros t Ht. rewrite (take_S_r l i p Hi). cbn [take].
        rewrite elem_of_app, list_elem_of_singleton, elem_of_cons. intuition congruence.
      * intros k. rewrite (take_S_r l i p Hi). cbn [take].
        rewrite bool_decide_eq_true_2 by left. cbn [app winner].
        rewrite (bool_decide_eq_true_2 (p ∈ (take i l ++ [p])%list)).
        { by rewrite andb_false_r. }
        apply elem_of_app. right. by left.
  - destruct i as [|i]; [cbn in Hi; congruence|]. cbn in Hi.
    destruct (list_remove p l) as [l0|] eqn:Hrm0; [|done].
    cbn in Hrm. injection Hrm as <-.
    destruct (IH i l0 Hi eq_refl) as [Hmem Hwin]. cbn [take]. split.
    + intros t Ht. rewrite !elem_of_cons. by rewrite (Hmem t Ht).
    + intros k. cbn [winner]. rewrite Hwin.
      rewrite (bool_decide_ext (p ∈ y :: take i l) (p ∈ take i l)).
      2: { rewrite elem_of_cons. intuition congruence. }
      destruct (decide (attr_key y = Some k)) as [Hy|Hy].
      2: { rewrite (bool_decide_eq_false_2 _ Hy). cbn [andb app winner].
           rewrite (bool_decide_eq_false_2 _ Hy).
           by destruct (bool_decide (p ∈ take i l)). }
      rewrite (bool_decide_ext (y ∈ take i l0) (y ∈ take i l)) by by apply Hmem.
      destruct (bool_decide (p ∈ take i l)); cbn [app winner]; [|done].
      rewrite (bool_decide_ext (y ∈ (take i l ++ [p])%list) (y ∈ take i l)); [done|].
      rewrite elem_of_app, list_elem_of_singleton. intuition congruence.
Qed.

(** Which value the scan leaves under each key. *)
Lemma scan_reversed_data n l d l' d' k :
  n <= length l ->
  scan_reversed n (l, d) = Ret (l', d') ->
  d' !! k = match winner k (take n l) with
            | Some t => Some (Str.drop (String.length k + 1) t)
            | None => d !! k
            end.
Proof.
  revert l d. induction n as [|i IH]; intros l d Hn Hrun.
  - cbn in Hrun. by simplify_eq.
  - cbn [scan_reversed fst] in Hrun.
    destruct (lookup_lt_is_Some_2 l i) as [p Hp]; [lia|]. rewrite Hp in Hrun.
    rewrite scan_arguments_spec in Hrun. rewrite (take_S_r l i p Hp).
    destruct (attr_key p) as [kp|] eqn:Hkp.
    + destruct (list_remove_lookup l i p Hp) as (l1 & Hrm & Hlen & _).
      rewrite Hrm in Hrun. cbn [obind] in Hrun.
      rewrite (IH l1 _ ltac:(lia) Hrun).
      destruct (list_remove_take l i p l1 Hp Hrm) as [_ Hwin]. rewrite Hwin.
      destruct (decide (kp = k)) as [->|Hne].
      * destruct (decide (p ∈ take i l)) as [Hin|Hin].
        -- rewrite bool_decide_eq_true_2 by done.
           by destruct (winner_app_last k (take i l) p Hkp) as [t ->].
        -- rewrite bool_decide_eq_false_2 by done.
           rewrite (winner_app_fresh k _ p Hkp Hin).
           destruct (winner k (take i l)); [done|]. cbn.
           by rewrite lookup_insert_eq.
      * rewrite lookup_insert_ne by done.
        rewrite (winner_app_other k (take i l) p) by congruence.
        by destruct (bool_decide (p ∈ take i l)).
    + cbn [obind] in Hrun. rewrite (IH l d ltac:(lia) Hrun).
      by rewrite (winner_app_other k (take i l) p) by congruence.
Qed.

Lemma attributes_winner tokens k :
  attributes tokens !! k
  = (fun t => Str.drop (String.length k + 1) t) <$> winner k tokens.
Proof.
  pose proof (scan_reversed_tokens tokens) as Hrun.
  rewrite (scan_reversed_data _ _ _ _ _ k (le_n _) Hrun), firstn_all.
  destruct (winner k tokens); [done|]. by rewrite lookup_empty.
Qed.

End Parser.

(** ** Facts about the rewrite *)

Section Rewrite.

Lemma update_line_spec enabled data line w d :
  heap w !! data = Some d ->
  update_line enabled data line w
  = (Ret (if matches d line then enabled +:+ Str.drop 1 line else line), w).
Proof.
  intros Hd. unfold update_line, matches, identity, mbind, lift, mret.
  destruct (parse_module_line_total line) as [[ld|] Hp]; rewrite Hp.
  - destruct (parse_module_line_enabled line ld Hp) as [e He].
    assert (truthy (Some ld) = true) as ->.
    { unfold truthy. rewrite bool_decide_eq_false_2; [done|].
      intros ->. by rewrite lookup_empty in He. }
    unfold del_key, dict_get. rewrite He, Hd.
    destruct (decide (d = delete "ENABLED" ld)) as [->|Hne].
    + by rewrite !bool_decide_eq_true_2.
    + rewrite !bool_decide_eq_false_2; [done| |done]. congruence.
  - by rewrite bool_decide_eq_false_2.
Qed.

Lemma update_loop_spec enabled data lines content w d :
  heap w !! data = Some d ->
  update_loop enabled data lines content w
  = (Ret (content ++
          map (fun line => if matches d line
                           then enabled +:+ Str.drop 1 line else line) lines)%list,
     w).
Proof.
  intros Hd. revert content.
  induction lines as [|line rest IH]; intros content; cbn [update_loop map].
  - unfold mret. by rewrite app_nil_r.
  - unfold mbind. rewrite (update_line_spec _ _ _ _ d Hd), IH.
    by rewrite <- app_assoc.
Qed.

Lemma mbind_ret {A B} (m : M A) (k : A -> M B) w a w' :
  m w = (Ret a, w') -> mbind m k w = k a w'.
Proof. unfold mbind. by intros ->. Qed.

Lemma mbind_raise {A B} (m : M A) (k : A -> M B) w e w' :
  m w = (Raise e, w') -> mbind m k w = (Raise e, w').
Proof. unfold mbind. by intros ->. Qed.

Lemma dict_del_run r key w d :
  heap w !! r = Some d ->
  dict_del r key w
  = match d !! key with
    | Some _ => (Ret tt, set_heap (<[r := delete key d]> (heap w)) w)
    | None => (Raise KeyError, w)
    end.
Proof.
  intros Hd. unfold dict_del, mbind, dict_get, lift, del_key. rewrite Hd.
  by destruct (d !! key).
Qed.

Lemma read_module_file_run path w :
  read_module_file path w
  = match fault w, disk w !! path with
    | fail_open_read, _ | _, None => (Raise OSError, w)
    | fail_decode, Some _ => (Raise UnicodeDecodeError, w)
    | _, Some src => (Ret (map Str.strip (Str.readlines src)), w)
    end.
Proof.
  unfold read_module_file, mbind, open_read, mret.
  destruct (fault w), (disk w !! path); done.
Qed.

Lemma write_run path content w :
  (do _ <- open_write path; writelines path content) w
  = match fault w with
    | fail_open_write => (Raise OSError, w)
    | fail_write n =>
        (Raise OSError,
         set_disk (<[path := Str.take n (Str.concat content)]> (disk w)) w)
    | _ => (Ret tt, set_disk (<[path := Str.concat content]> (disk w)) w)
    end.
Proof.
  destruct w as [h dk f].
  unfold mbind, open_write, writelines, set_disk. cbn [heap disk fault].
  destruct f; cbn [heap disk fault]; try done;
    by rewrite lookup_insert_eq, insert_insert_eq.
Qed.

(** After [del data["ENABLED"]] the world holds the caller's dictionary
    without that key, and the lines are computed against it. *)
Lemma update_module_file_steps path state data w d e :
  heap w !! data = Some d ->
  d !! "ENABLED" = Some e ->
  update_module_file path state data w
  = (let w1 := set_heap (<[data := delete "ENABLED" d]> (heap w)) w in
     match fault w, disk w !! path with
     | fail_open_read, _ | _, None => (Raise OSError, w1)
     | fail_decode, Some _ => (Raise UnicodeDecodeError, w1)
     | f, Some src =>
         let text := rewritten state (delete "ENABLED" d) src in
         match f with
         | fail_open_write => (Raise OSError, w1)
         | fail_write n =>
             (Raise OSError,
              set_disk (<[path := Str.take n text]> (disk w)) w1)
         | _ => (Ret tt, set_disk (<[path := text]> (disk w)) w1)
         end
     end).
Proof.
  intros Hd He. unfold update_module_file.
  erewrite mbind_ret; [|by rewrite (dict_del_run _ _ _ d Hd), He].
  set (w1 := set_heap _ w). cbv zeta.
  assert (heap w1 !! data = Some (delete "ENABLED" d)) as Hd1.
  { destruct w. cbn. by rewrite lookup_insert_eq. }
  assert (fault w1 = fault w /\ disk w1 = disk w) as [Hf Hk].
  { by destruct w. }
  pose proof (read_module_file_run path w1) as Hread.
  rewrite Hf, Hk in Hread.
  destruct (disk w !! path) as [src|] eqn:Hsrc.
  2: { rewrite (mbind_raise _ _ w1 OSError w1); [by destruct (fault w)|].
       rewrite Hread. by destruct (fault w). }
  destruct (fault w) eqn:Hfw.
  2: { by rewrite (mbind_raise _ _ w1 OSError w1). }
  4: { by rewrite (mbind_raise _ _ w1 UnicodeDecodeError w1). }
  all: (erewrite mbind_ret; [|exact Hread]);
    (erewrite mbind_ret; [|by apply update_loop_spec]);
    rewrite write_run, Hf, ?Hk; cbn [app]; reflexivity.
Qed.

Lemma append_cons c a b : String c a +:+ b = String c (a +:+ b).
Proof. reflexivity. Qed.

Lemma lstrip_decompose s :
  exists pre, s = pre +:+ Str.lstrip s /\ all_space pre = true.
Proof.
  induction s as [|c s [pre [IH Hpre]]]; [by exists ""|].
  cbn [Str.lstrip]. destruct (Str.isspace c) eqn:Hc.
  - exists (String c pre). rewrite append_cons. simpl.
    rewrite Hc, Hpre. split; [by f_equal|done].
  - by exists "".
Qed.

Lemma rstrip_decompose s :
  exists post, s = Str.rstrip s +:+ post /\ all_space post = true.
Proof.
  induction s as [|c s [post [IH Hpost]]]; [by exists ""|].
  cbn [Str.rstrip]. destruct (Str.rstrip s) as [|c' r] eqn:Hr.
  - change ("" +:+ post) with post in IH. subst post.
    destruct (Str.isspace c) eqn:Hc.
    + exists (String c s). simpl. by rewrite Hc, Hpost.
    + by exists s.
  - exists post. rewrite append_cons. split; [by f_equal|done].
Qed.

(** [strip] takes away whitespace at the two ends and nothing else. *)
Lemma strip_decompose s :
  exists pre post,
    s = pre +:+ Str.strip s +:+ post
    /\ all_space pre = true /\ all_space post = true.
Proof.
  destruct (lstrip_decompose s) as (pre & Hs & Hpre).
  destruct (rstrip_decompose (Str.lstrip s)) as (post & Hl & Hpost).
  exists pre, post. unfold Str.strip. by rewrite <- Hl, <- Hs.
Qed.

Lemma identity_starts_with_marker line ident :
  identity line = Some ident ->
  exists c rest, line = String c rest /\ is_marker c = true.
Proof.
  unfold identity. destruct (parse_module_line line) as [[d|]|] eqn:Hp; [|done..].
  intros _. apply parse_module_line_Some in Hp as [Hm _].
  destruct line as [|c rest]; [done|]. eauto.
Qed.

Lemma rewrite_line_cases state ident line :
  (identity line = Some ident
   /\ rewrite_line state ident line = marker state +:+ Str.drop 1 line)
  \/ (identity line <> Some ident /\ rewrite_line state ident line = line).
Proof.
  unfold rewrite_line, matches.
  destruct (decide (identity line = Some ident)) as [Hi|Hi].
  - left. by rewrite bool_decide_eq_true_2.
  - right. by rewrite bool_decide_eq_false_2.
Qed.

(** A successful call, in terms of the lines written. *)
Lemma update_module_file_lines path state data w d e src :
  fault w = no_fault ->
  heap w !! data = Some d ->
  d !! "ENABLED" = Some e ->
  disk w !! path = Some src ->
  let res := update_module_file path state data w in
  let out := map (rewrite_line state (delete "ENABLED" d))
                 (map Str.strip (Str.readlines src)) in
  fst res = Ret tt
  /\ disk (snd res) = <[path := unlines out]> (disk w)
  /\ heap (snd res) = <[data := delete "ENABLED" d]> (heap w).
Proof.
  intros Hf Hd He Hsrc. cbv zeta.
  rewrite (update_module_file_steps _ _ _ _ d e Hd He), Hf, Hsrc.
  by destruct w.
Qed.

Lemma unpadded_lines src :
  (forall raw, raw ∈ Str.readlines src -> Str.strip raw = Str.chomp raw) ->
  map Str.strip (Str.readlines src) = map Str.chomp (Str.readlines src).
Proof.
  intros H. apply map_ext_in. intros raw Hin%list_elem_of_In. by apply H.
Qed.

End Rewrite.

(** ** The rewrite: what changes and what stays (C1, C3, C4) *)

(** C1, as amended: a successful update writes the file back line by line,
    each line closed by one newline.  Every line is the source line without
    its leading and trailing whitespace, its interior untouched; on top of
    that only the first character of a line carrying the given identity is
    replaced by the marker.  No other file changes. *)
Theorem update_module_file_frame path state data w d e src :
  fault w = no_fault ->
  heap w !! data = Some d ->
  d !! "ENABLED" = Some e ->
  disk w !! path = Some src ->
  frame_property path state data w d src.
Proof.
  intros Hf Hd He Hsrc.
  destruct (update_module_file_lines path state data w d e src Hf Hd He Hsrc)
    as (Hret & Hdisk & _).
  eexists. split_and!; [exact Hret|exact Hdisk|by rewrite !length_map|].
  intros i raw Hraw. split; [apply strip_decompose|].
  rewrite !list_lookup_fmap, Hraw. cbn. eexists. split; [done|].
  destruct (rewrite_line_cases state (delete "ENABLED" d) (Str.strip raw))
    as [[Hi ->]|[_ ->]]; [right|by left].
  destruct (identity_starts_with_marker _ _ Hi) as (c & rest & Hs & Hc).
  exists c, rest. by rewrite Hs in *.
Qed.

Lemma update_module_file_frame_witness :
  frame_property "/mods/tool.mod" false 0 tool_world tool_record tool_mod.
Proof.
  apply (update_module_file_frame "/mods/tool.mod" false 0 tool_world
           tool_record "+" tool_mod); reflexivity.
Defined.

(** C1 fails as stated: an indented line that is no record, below the record
    being toggled, loses its indentation. *)
Lemma update_module_file_strips_indentation :
  let src := "+ Tool 1.0 ../content" +:+ Str.nl
             +:+ "  MAYA_SCRIPT_PATH +:= scripts" +:+ Str.nl in
  let d := <["ENABLED" := "+"]> (<["NAME" := "Tool"]> (<["VERSION" := "1.0"]>
           (<["PATH" := "../content"]> ∅))) in
  let w := World {[ 0 := d ]} {[ "/mods/tool.mod" := src ]} no_fault in
  let res := update_module_file "/mods/tool.mod" false 0 w in
  fst res = Ret tt
  /\ identity "  MAYA_SCRIPT_PATH +:= scripts" = None
  /\ disk (snd res) !! "/mods/tool.mod"
     = Some ("- Tool 1.0 ../content" +:+ Str.nl
             +:+ "MAYA_SCRIPT_PATH +:= scripts" +:+ Str.nl)
  /\ disk (snd res) !! "/mods/tool.mod"
     <> Some ("- Tool 1.0 ../content" +:+ Str.nl
              +:+ "  MAYA_SCRIPT_PATH +:= scripts" +:+ Str.nl).
Proof. vm_compute. split_and!; try reflexivity. discriminate. Qed.

(** C3, as amended: a successful update gives the desired marker to every
    line whose identity (the parsed fields without ENABLED) equals the given
    one, whatever its first character was, duplicates included (two lines
    that differ in the marker only have one identity), and keeps every other
    stripped line as it is.  When no line matches, the file is
    written back as its stripped lines; it is the source up to newline
    normalisation when no line has whitespace at either end. *)
Theorem update_module_file_by_identity path state data w d e src :
  fault w = no_fault ->
  heap w !! data = Some d ->
  d !! "ENABLED" = Some e ->
  disk w !! path = Some src ->
  matching_property path state data w d src.
Proof.
  intros Hf Hd He Hsrc.
  destruct (update_module_file_lines path state data w d e src Hf Hd He Hsrc)
    as (Hret & Hdisk & _).
  eexists. split_and!; [exact Hret|exact Hdisk|by rewrite !length_map|..].
  - apply identity_marker_irrelevant.
  - intros i raw Hraw Hi. rewrite !list_lookup_fmap, Hraw. cbn. f_equal.
    by destruct (rewrite_line_cases state (delete "ENABLED" d) (Str.strip raw))
      as [[_ ->]|[? _]].
  - intros i raw Hraw Hi. rewrite !list_lookup_fmap, Hraw. cbn. f_equal.
    by destruct (rewrite_line_cases state (delete "ENABLED" d) (Str.strip raw))
      as [[? _]|[_ ->]].
  - intros Hnone.
    assert (map (rewrite_line state (delete "ENABLED" d))
                (map Str.strip (Str.readlines src))
            = map Str.strip (Str.readlines src)) as ->.
    { rewrite <- (map_id (map Str.strip (Str.readlines src))) at 2.
      apply map_ext_in. intros line Hin%list_elem_of_In.
      apply list_elem_of_fmap in Hin as (raw & -> & Hraw).
      destruct (rewrite_line_cases state (delete "ENABLED" d) (Str.strip raw))
        as [[Hi _]|[_ ->]]; [|done]. by destruct (Hnone raw Hraw). }
    split; [done|]. intros Hpad. unfold normalize_newlines.
    by rewrite (unpadded_lines src Hpad).
Qed.

Lemma update_module_file_by_identity_witness :
  matching_property "/mods/tool.mod" false 0 tool_world tool_record tool_mod.
Proof.
  apply (update_module_file_by_identity "/mods/tool.mod" false 0 tool_world
           tool_record "+" tool_mod); reflexivity.
Defined.

(** C3 fails as stated: no line of the file has the identity asked for, and
    still the file written differs from its source by more than the line
    terminators. *)
Lemma update_module_file_no_match_strips :
  let src := "# tools  " +:+ Str.nl +:+ "    + Other 2.0 /opt/other" +:+ Str.nl in
  let w := World {[ 0 := tool_record ]} {[ "/mods/tool.mod" := src ]} no_fault in
  let res := update_module_file "/mods/tool.mod" true 0 w in
  fst res = Ret tt
  /\ matches (delete "ENABLED" tool_record) "# tools" = false
  /\ matches (delete "ENABLED" tool_record) "+ Other 2.0 /opt/other" = false
  /\ normalize_newlines src = src
  /\ disk (snd res) !! "/mods/tool.mod"
     = Some ("# tools" +:+ Str.nl +:+ "+ Other 2.0 /opt/other" +:+ Str.nl)
  /\ disk (snd res) !! "/mods/tool.mod" <> Some (normalize_newlines src).
Proof. vm_compute. split_and!; try reflexivity. discriminate. Qed.

(** C4, as amended: for a record parsed from a line of the file, an update
    to the record's present state writes the file back as its stripped
    lines, provided every line with the record's identity already begins
    with the marker of that state; it is then the source up to newline
    normalisation when no line has whitespace at either end. *)
Theorem update_module_file_same_state path data w r src raw0 :
  fault w = no_fault ->
  disk w !! path = Some src ->
  raw0 ∈ Str.readlines src ->
  parse_module_line (Str.strip raw0) = Ret (Some r) ->
  heap w !! data = Some r ->
  (forall raw, raw ∈ Str.readlines src ->
     identity (Str.strip raw) = Some (delete "ENABLED" r) ->
     Str.take 1 (Str.strip raw) = marker (enabled_state r)) ->
  same_state_property path data w r src.
Proof.
  intros Hf Hsrc Hraw0 Hparse Hd Hsame.
  destruct (parse_module_line_enabled _ _ Hparse) as [e He].
  destruct (update_module_file_lines path (enabled_state r) data w r e src
              Hf Hd He Hsrc) as (Hret & Hdisk & _).
  assert (map (rewrite_line (enabled_state r) (delete "ENABLED" r))
              (map Str.strip (Str.readlines src))
          = map Str.strip (Str.readlines src)) as Hout.
  { rewrite <- (map_id (map Str.strip (Str.readlines src))) at 2.
    apply map_ext_in. intros line Hin%list_elem_of_In.
    apply list_elem_of_fmap in Hin as (raw & -> & Hraw).
    destruct (rewrite_line_cases (enabled_state r) (delete "ENABLED" r)
                (Str.strip raw)) as [[Hi ->]|[_ ->]]; [|done].
    rewrite <- (Hsame raw Hraw Hi).
    destruct (identity_starts_with_marker _ _ Hi) as (c & rest & -> & _).
    done. }
  rewrite Hout in Hdisk. split_and!; [done..|].
  intros Hpad. unfold normalize_newlines.
  by rewrite <- (unpadded_lines src Hpad).
Qed.

Lemma update_module_file_same_state_witness :
  same_state_property "/mods/tool.mod" 0 tool_world tool_record tool_mod.
Proof.
  apply (update_module_file_same_state "/mods/tool.mod" 0 tool_world
           tool_record tool_mod
           ("+ MAYAVERSION:2024 Tool 1.0 ../content" +:+ Str.nl)).
  - reflexivity.
  - reflexivity.
  - vm_compute. apply list_elem_of_In. right. left. reflexivity.
  - vm_compute. reflexivity.
  - reflexivity.
  - intros raw Hraw%list_elem_of_In.
    vm_compute in Hraw.
    destruct Hraw as [<-|[<-|[<-|[<-|[]]]]]; vm_compute; intros; try reflexivity;
      discriminate.
Defined.

(** C4 fails as stated: two lines share an identity and differ in marker;
    writing the present state of the first one switches the second. *)
Lemma update_module_file_same_state_changes_duplicate :
  let src := "+ Tool 1.0 ../content" +:+ Str.nl
             +:+ "- Tool 1.0 ../content" +:+ Str.nl in
  let r := <["ENABLED" := "+"]> (<["NAME" := "Tool"]> (<["VERSION" := "1.0"]>
           (<["PATH" := "../content"]> ∅))) in
  let w := World {[ 0 := r ]} {[ "/mods/tool.mod" := src ]} no_fault in
  let res := update_module_file "/mods/tool.mod" (enabled_state r) 0 w in
  parse_module_line "+ Tool 1.0 ../content" = Ret (Some r)
  /\ enabled_state r = true
  /\ fst res = Ret tt
  /\ normalize_newlines src = src
  /\ disk (snd res) !! "/mods/tool.mod"
     = Some ("+ Tool 1.0 ../content" +:+ Str.nl
             +:+ "+ Tool 1.0 ../content" +:+ Str.nl)
  /\ disk (snd res) !! "/mods/tool.mod" <> Some src.
Proof. vm_compute. split_and!; try reflexivity. discriminate. Qed.


(** ** The parser: records, keyed tokens, the ENABLED field (C2, C5, C6) *)

Lemma attr_key_of_startswith t k :
  k ∈ MODULE_ARGUMENTS -> Str.startswith t k = true -> attr_key t = Some k.
Proof.
  unfold attr_key, MODULE_ARGUMENTS. intros Hk Hs. cbn [List.find].
  repeat (apply elem_of_cons in Hk as [->|Hk]).
  - by rewrite Hs.
  - apply startswith_head in Hs as Ht. destruct Ht as [t' ->].
    change (Str.startswith (String "P" t') "MAYAVERSION") with false.
    by rewrite Hs.
  - apply startswith_head in Hs as Ht. destruct Ht as [t' ->].
    change (Str.startswith (String "L" t') "MAYAVERSION") with false.
    change (Str.startswith (String "L" t') "PLATFORM") with false.
    by rewrite Hs.
  - by apply elem_of_nil in Hk.
Qed.

Lemma argument_not_positional_key k :
  k ∈ MODULE_ARGUMENTS ->
  k <> "ENABLED" /\ k <> "NAME" /\ k <> "VERSION" /\ k <> "PATH".
Proof.
  unfold MODULE_ARGUMENTS. intros Hk.
  repeat (apply elem_of_cons in Hk as [->|Hk]); [done..|].
  by apply elem_of_nil in Hk.
Qed.

(** C2, as amended: [parse_module_line] never raises; it returns a record
    exactly for a line whose first character is [+] or [-] and which, once
    the keyed tokens are taken out, has four tokens, so every line whose
    first character is neither is opaque.  The rewrite judges each line
    after stripping it, and writes a line that is no record back as that
    stripped line. *)
Theorem parse_module_line_record_iff :
  (forall line,
     exists r, parse_module_line line = Ret r
       /\ (is_Some r <->
           starts_with_marker line = true
           /\ length (positional (Str.split line)) = 4)
       /\ (starts_with_marker line = false -> r = None))
  /\ (forall path state data w d e src,
       fault w = no_fault ->
       heap w !! data = Some d ->
       d !! "ENABLED" = Some e ->
       disk w !! path = Some src ->
       passthrough_property path state data w src).
Proof.
  split.
  - intros line. rewrite parse_module_line_spec. eexists. split; [done|].
    destruct (starts_with_marker line).
    + split; [|done].
      destruct (positional _) as [|p0 [|p1 [|p2 [|p3 [|? ?]]]]]; cbn;
        split; try (by intros [? [=]]); try (by intros [? ?]); eauto.
    + split; [|done]. split; [by intros [? [=]]|by intros [? ?]].
  - intros path state data w d e src Hf Hd He Hsrc.
    destruct (update_module_file_lines path state data w d e src Hf Hd He Hsrc)
      as (Hret & Hdisk & _).
    eexists. split_and!; [exact Hret|exact Hdisk|].
    intros i raw Hraw Hno. rewrite !list_lookup_fmap, Hraw. cbn. f_equal.
    destruct (rewrite_line_cases state (delete "ENABLED" d) (Str.strip raw))
      as [[Hi _]|[_ ->]]; [|done].
    unfold identity in Hi.
    destruct (parse_module_line (Str.strip raw)) as [[ld|]|] eqn:Hp; [|done..].
    apply parse_module_line_Some in Hp as (Hm & p0 & p1 & p2 & p3 & Hpos & _).
    destruct Hno as [Hno|Hno]; [congruence|]. by rewrite Hpos in Hno.
Qed.

Lemma parse_module_line_record_iff_witness :
  (exists r, parse_module_line "+ MAYAVERSION:2024 Tool 1.0 ../content" = Ret r
     /\ (is_Some r <->
         starts_with_marker "+ MAYAVERSION:2024 Tool 1.0 ../content" = true
         /\ length (positional
                      (Str.split "+ MAYAVERSION:2024 Tool 1.0 ../content")) = 4)
     /\ (starts_with_marker "+ MAYAVERSION:2024 Tool 1.0 ../content" = false ->
         r = None))
  /\ passthrough_property "/mods/tool.mod" false 0 tool_world tool_mod.
Proof.
  split.
  - apply (proj1 parse_module_line_record_iff).
  - apply (proj2 parse_module_line_record_iff "/mods/tool.mod" false 0
             tool_world tool_record "+" tool_mod); reflexivity.
Defined.

(** C2 fails as stated: the first character is [+], yet the line is no
    record. *)
Lemma parse_module_line_marker_not_enough :
  starts_with_marker "+OnlyTwoTokens" = true
  /\ parse_module_line "+OnlyTwoTokens" = Ret None
  /\ parse_module_line "+ Tool 1.0" = Ret None.
Proof. vm_compute. auto. Qed.

(** Nor is an indented record line of a file passed through: the rewrite
    sees it stripped. *)
Example update_module_file_indented_record :
  let src := "   + MAYAVERSION:2024 Tool 1.0 ../content" +:+ Str.nl in
  let w := World {[ 0 := tool_record ]} {[ "/mods/tool.mod" := src ]} no_fault in
  let res := update_module_file "/mods/tool.mod" false 0 w in
  parse_module_line "   + MAYAVERSION:2024 Tool 1.0 ../content" = Ret None
  /\ disk (snd res) !! "/mods/tool.mod"
     = Some ("- MAYAVERSION:2024 Tool 1.0 ../content" +:+ Str.nl).
Proof. vm_compute. auto. Qed.

(** C5, as amended: every token that starts with a recognised key is taken
    out of the positional tokens, however many tokens carry the same key.  A
    marker-led line with four other tokens is therefore a record; a key
    carried by some token is present in it, and its value is what follows
    the key and one more character in the first token, in line order, that
    starts with the key and is not repeated further on in the line. *)
Theorem parse_module_line_keyed_tokens line :
  starts_with_marker line = true ->
  length (positional (Str.split line)) = 4 ->
  keyed_tokens_property line.
Proof.
  intros Hm Hlen. unfold keyed_tokens_property.
  rewrite parse_module_line_spec, Hm.
  destruct (positional _) as [|p0 [|p1 [|p2 [|p3 [|? ?]]]]]; try done.
  eexists. split; [done|]. intros k Hk.
  destruct (argument_not_positional_key k Hk) as (? & ? & ? & ?).
  rewrite !lookup_insert_ne by done.
  destruct (attributes_lookup (Str.split line) k) as [Hval Hall]. split_and!.
  - intros (t & Ht & Hs). apply (Hall t Ht). by apply attr_key_of_startswith.
  - intros v Hv. destruct (Hval v Hv) as (t & Ht & Hkt & ->).
    exists t. split_and!; [done| |done]. by apply attr_key_startswith.
  - apply attributes_winner.
Qed.

Lemma parse_module_line_keyed_tokens_witness :
  keyed_tokens_property
    "+ Tool 1.0 ../content MAYAVERSION:2024 MAYAVERSION:2025".
Proof.
  apply (parse_module_line_keyed_tokens
           "+ Tool 1.0 ../content MAYAVERSION:2024 MAYAVERSION:2025");
    reflexivity.
Defined.

(** C5 fails as stated: with two tokens on the same key both are taken out,
    four positional tokens remain and the line is a record. *)
Lemma parse_module_line_two_tokens_one_key :
  parse_module_line "+ Tool 1.0 ../content MAYAVERSION:2024 MAYAVERSION:2025"
  = Ret (Some (<["MAYAVERSION" := "2024"]> (<["ENABLED" := "+"]>
        (<["NAME" := "Tool"]> (<["VERSION" := "1.0"]>
        (<["PATH" := "../content"]> ∅))))))
  /\ positional
       (Str.split "+ Tool 1.0 ../content MAYAVERSION:2024 MAYAVERSION:2025")
     = ["+"; "Tool"; "1.0"; "../content"].
Proof. vm_compute. auto. Qed.

(** C6, as amended: in a record, ENABLED is the first whitespace-delimited
    token of the line; it begins with the marker, the first character of the
    line, and may go on after it.  The record counts as enabled exactly when
    that token is the string [+]. *)
Theorem parse_module_line_enabled_field line d :
  parse_module_line line = Ret (Some d) ->
  exists c rest tok toks,
    line = String c rest /\ is_marker c = true
    /\ Str.split line = String c tok :: toks
    /\ d !! "ENABLED" = Some (String c tok)
    /\ (enabled_state d = true <-> String c tok = "+").
Proof.
  intros (Hm & p0 & p1 & p2 & p3 & Hpos & ->)%parse_module_line_Some.
  destruct line as [|c rest]; [done|]. cbn in Hm.
  destruct (split_head c rest (marker_not_space c Hm)) as (tok & toks & Hsplit).
  exists c, rest, tok, toks. split_and!; try done.
  - rewrite Hsplit in Hpos. unfold positional in Hpos. cbn [List.filter] in Hpos.
    rewrite (marker_not_attr c tok Hm) in Hpos. cbn in Hpos.
    injection Hpos as <- _. by simplify_map_eq.
  - rewrite Hsplit in Hpos. unfold positional in Hpos. cbn [List.filter] in Hpos.
    rewrite (marker_not_attr c tok Hm) in Hpos. cbn in Hpos.
    injection Hpos as <- _. unfold enabled_state.
    rewrite !lookup_insert_ne, lookup_insert_eq by done.
    rewrite bool_decide_eq_true. split; congruence.
Qed.

Lemma parse_module_line_enabled_field_witness :
  exists c rest tok toks,
    "- MAYAVERSION:2024 Tool 1.0 ../content" = String c rest
    /\ is_marker c = true
    /\ Str.split "- MAYAVERSION:2024 Tool 1.0 ../content" = String c tok :: toks
    /\ tool_record_off !! "ENABLED" = Some (String c tok)
    /\ (enabled_state tool_record_off = true <-> String c tok = "+").
Proof.
  apply (parse_module_line_enabled_field
           "- MAYAVERSION:2024 Tool 1.0 ../content" tool_record_off).
  vm_compute. reflexivity.
Defined.

(** C6 fails as stated: the record's ENABLED field is longer than the
    marker, and the record counts as disabled although it begins with [+]. *)
Lemma parse_module_line_enabled_not_bare_marker :
  exists d, parse_module_line "+Tool 1.0 ../content scripts" = Ret (Some d)
    /\ d !! "ENABLED" = Some "+Tool"
    /\ enabled_state d = false.
Proof. eexists. vm_compute. auto. Qed.


(** ** Compatibility (C7) *)

Lemma is_compatible_items_iff items data :
  is_compatible_items items data = true
  <-> forall key value, (key, value) ∈ items ->
        forall v, data !! key = Some v -> v = value.
Proof.
  induction items as [|[key value] rest IH]; cbn [is_compatible_items].
  - split; [|done]. intros _ key value Hin. by apply elem_of_nil in Hin.
  - destruct (data !! key) as [v|] eqn:Hv.
    + destruct (String.eqb_spec v value) as [->|Hne]; cbn [negb].
      * rewrite IH. split.
        -- intros H key' value' [[= -> ->]|Hin]%elem_of_cons v' Hv'.
           ++ congruence.
           ++ by apply (H key' value').
        -- intros H key' value' Hin. apply H. by right.
      * split; [done|]. intros H. destruct Hne. apply (H key value); [left|done].
    + rewrite IH. split.
      * intros H key' value' [[= -> ->]|Hin]%elem_of_cons v' Hv'.
        -- congruence.
        -- by apply (H key' value').
      * intros H key' value' Hin. apply H. by right.
Qed.

(** C7: [is_compatible] holds exactly when each of MAYAVERSION, PLATFORM and
    LOCALE that the record has stores what the environment reports for it:
    the version, the operating system and the language of the user
    interface.  An absent key asks for nothing: a record with none of the
    three is compatible in every environment, and a record with MAYAVERSION
    alone is compatible exactly in the environments of that version. *)
Theorem is_compatible_conjunctive env data :
  (is_compatible env data = true
   <-> (forall v, data !! "MAYAVERSION" = Some v -> v = about_version env)
       /\ (forall v, data !! "PLATFORM" = Some v ->
             v = about_operatingSystem env)
       /\ (forall v, data !! "LOCALE" = Some v -> v = about_uiLanguage env))
  /\ ((forall key, key ∈ MODULE_ARGUMENTS -> data !! key = None) ->
      forall env', is_compatible env' data = true)
  /\ (forall version,
        data !! "MAYAVERSION" = Some version ->
        data !! "PLATFORM" = None -> data !! "LOCALE" = None ->
        (is_compatible env data = true <-> about_version env = version)).
Proof.
  assert (forall env0,
            is_compatible env0 data = true
            <-> (forall v, data !! "MAYAVERSION" = Some v ->
                   v = about_version env0)
                /\ (forall v, data !! "PLATFORM" = Some v ->
                      v = about_operatingSystem env0)
                /\ (forall v, data !! "LOCALE" = Some v ->
                      v = about_uiLanguage env0)) as Hiff.
  { intros env0. unfold is_compatible. rewrite is_compatible_items_iff.
    unfold MAYA_ARGUMENTS. split.
    - intros Hall. split_and!; intros v Hv;
        (eapply Hall; [|exact Hv]); repeat constructor.
    - intros (Hv & Hp & Hl) key value Hin v Hd.
      repeat (apply elem_of_cons in Hin as [[= -> ->]|Hin]); [auto..|].
      by apply elem_of_nil in Hin. }
  split_and!.
  - apply Hiff.
  - intros Hnone env'. apply Hiff.
    split_and!; intros v Hv; rewrite Hnone in Hv; try done;
      unfold MODULE_ARGUMENTS; repeat constructor.
  - intros version Hv Hp Hl. rewrite Hiff. split.
    + intros (Hver & _). symmetry. by apply Hver.
    + intros <-. split_and!; intros v; rewrite ?Hv, ?Hp, ?Hl; congruence.
Qed.

Lemma is_compatible_conjunctive_witness :
  is_compatible (Environment "2024" "win64" "en_US") tool_record = true
  /\ is_compatible (Environment "2025" "win64" "en_US") tool_record = false.
Proof.
  split.
  - apply (proj2 (proj2 (is_compatible_conjunctive
                           (Environment "2024" "win64" "en_US") tool_record))
             "2024"); reflexivity.
  - apply not_true_is_false. intros Hc.
    apply (proj2 (proj2 (is_compatible_conjunctive
                           (Environment "2025" "win64" "en_US") tool_record))
             "2024") in Hc; [discriminate Hc|reflexivity..].
Defined.

(** The example of the specification: a record asking for version 2024 and
    nothing else. *)
Example is_compatible_version_only platform locale :
  let r := <["MAYAVERSION" := "2024"]> (<["ENABLED" := "+"]>
           (<["NAME" := "Tool"]> (<["VERSION" := "1.0"]>
           (<["PATH" := "../content"]> ∅)))) in
  is_compatible (Environment "2024" platform locale) r = true
  /\ is_compatible (Environment "2025" platform locale) r = false.
Proof. split; reflexivity. Qed.


(** ** Failures of the file operations (C9) *)

(** C9, as amended: a failing file operation reaches the caller as Python's
    [OSError]; nothing catches it.  When the file cannot be read, or cannot
    be opened for writing, the disk is as it was.  When the failure comes
    while the text is written, the file has been truncated already and holds
    the part of the new text that reached it. *)
Theorem update_module_file_io_failure path state data w d e :
  heap w !! data = Some d ->
  d !! "ENABLED" = Some e ->
  (fault w <> no_fault /\ fault w <> fail_decode) \/ disk w !! path = None ->
  io_failure_property path state data w d.
Proof.
  intros Hd He Hfail. unfold io_failure_property. cbv zeta.
  rewrite (update_module_file_steps _ _ _ _ d e Hd He). cbv zeta.
  destruct w as [h dk f]. cbn [heap disk fault set_heap set_disk] in *.
  destruct (dk !! path) as [src|] eqn:Hsrc.
  - destruct Hfail as [[Hf Hf']|?]; [|done].
    destruct f; cbn [fst snd disk set_disk set_heap heap fault]; try done.
    split_and!; [done| |].
    + by intros [[=]|[[=]|[=]]].
    + by intros n' src' [= <-] [= <-].
  - destruct f; cbn [fst snd disk set_disk set_heap heap fault];
      split_and!; try done; by intros n' src' _ [=].
Qed.

Lemma update_module_file_io_failure_witness :
  io_failure_property "/mods/tool.mod" false 0
    (failing_world fail_open_write) tool_record.
Proof.
  apply (update_module_file_io_failure "/mods/tool.mod" false 0
           (failing_world fail_open_write) tool_record "+").
  - reflexivity.
  - reflexivity.
  - left. split; discriminate.
Defined.

(** C9 fails as stated: the write fails after twelve characters; the caller
    gets the error, and the file is neither what it was nor what it was
    meant to become. *)
Lemma update_module_file_partial_write :
  let w := failing_world (fail_write 12) in
  let res := update_module_file "/mods/tool.mod" false 0 w in
  disk w !! "/mods/tool.mod" = Some tool_mod
  /\ fst res = Raise OSError
  /\ disk (snd res) !! "/mods/tool.mod" = Some ("// tools" +:+ Str.nl +:+ "- M")
  /\ disk (snd res) !! "/mods/tool.mod" <> disk w !! "/mods/tool.mod".
Proof. vm_compute. split_and!; try reflexivity. discriminate. Qed.

(** ** The caller's dictionary (C10) *)

Lemma update_module_file_KeyError path state data w d :
  heap w !! data = Some d ->
  d !! "ENABLED" = None ->
  update_module_file path state data w = (Raise KeyError, w).
Proof.
  intros Hd He. unfold update_module_file.
  apply mbind_raise. by rewrite (dict_del_run _ _ _ d Hd), He.
Qed.

Lemma update_module_file_heap path state data w d :
  heap w !! data = Some d ->
  heap (snd (update_module_file path state data w))
  = <[data := delete "ENABLED" d]> (heap w).
Proof.
  intros Hd. destruct (d !! "ENABLED") as [e|] eqn:He.
  - rewrite (update_module_file_steps _ _ _ _ d e Hd He). cbv zeta.
    destruct w as [h dk f]. cbn [heap disk fault set_heap set_disk].
    by destruct f, (dk !! path).
  - rewrite (update_module_file_KeyError _ _ _ _ d Hd He). cbn [snd].
    rewrite (delete_id _ _ He). by rewrite insert_id.
Qed.

Lemma dict_copy_run r w d :
  heap w !! r = Some d ->
  dict_copy r w
  = (Ret (fresh (dom (heap w))),
     set_heap (<[fresh (dom (heap w)) := d]> (heap w)) w).
Proof.
  intros Hd. unfold dict_copy, mbind, dict_get. by rewrite Hd.
Qed.

(** C10: [update_module_file] deletes ENABLED from the very dictionary it was
    handed, and touches no other key and no other object: whether the call
    returns or raises, that dictionary has no ENABLED afterwards.  With a
    readable and writable file and ENABLED present the call returns.
    [_emit_enabled_changed] hands over a copy, so the widget's dictionary is
    as it was. *)
Theorem update_module_file_mutates_argument path state data w d :
  heap w !! data = Some d ->
  argument_mutation_property path state data w d.
Proof.
  intros Hd. unfold argument_mutation_property. cbv zeta.
  pose proof (update_module_file_heap path state data w d Hd) as Hheap.
  split_and!; [done| | |].
  - exists (delete "ENABLED" d). rewrite Hheap.
    by rewrite lookup_insert_eq, lookup_delete_eq.
  - intros Hf [src Hsrc] [e He].
    by destruct (update_module_file_lines path state data w d e src Hf Hd He Hsrc).
  - unfold emit_enabled_changed.
    rewrite (mbind_ret _ _ _ _ _ (dict_copy_run data w d Hd)).
    set (r := fresh (dom (heap w))).
    assert (r <> data) as Hne.
    { intros Heq. apply (is_fresh (dom (heap w))).
      change (r ∈ dom (heap w)). rewrite Heq. apply elem_of_dom. eauto. }
    set (w1 := set_heap _ w).
    assert (heap w1 !! r = Some d) as Hr.
    { destruct w. cbn. by rewrite lookup_insert_eq. }
    rewrite (update_module_file_heap path state r w1 d Hr).
    rewrite lookup_insert_ne by done.
    destruct w. cbn. by rewrite lookup_insert_ne.
Qed.

Lemma update_module_file_mutates_argument_witness :
  argument_mutation_property "/mods/tool.mod" false 0 tool_world tool_record.
Proof.
  apply (update_module_file_mutates_argument "/mods/tool.mod" false 0
           tool_world tool_record).
  reflexivity.
Defined.


(** ** The locator (C8) *)

(** *** The extension test *)

Lemma length_append a b :
  String.length (a +:+ b) = String.length a + String.length b.
Proof. induction a as [|c a IH]; [done|]. rewrite append_cons. cbn. by rewrite IH. Qed.

Lemma take_drop n s : Str.take n s +:+ Str.drop n s = s.
Proof.
  revert s. induction n as [|n IH]; intros [|c s]; try done.
  cbn [Str.take Str.drop]. rewrite append_cons. by rewrite IH.
Qed.

Lemma drop_append a b : Str.drop (String.length a) (a +:+ b) = b.
Proof. induction a as [|c a IH]; [done|]. by rewrite append_cons. Qed.

Lemma endswith_iff s p :
  Str.endswith s p = true <-> exists stem, s = stem +:+ p.
Proof.
  unfold Str.endswith. rewrite andb_true_iff, String.eqb_eq, Nat.leb_le. split.
  - intros [Hdrop _].
    exists (Str.take (String.length s - String.length p) s).
    pose proof (take_drop (String.length s - String.length p) s) as Htd.
    by rewrite Hdrop in Htd.
  - intros [stem ->]. rewrite length_append. split; [|lia].
    replace (String.length stem + String.length p - String.length p)
      with (String.length stem) by lia.
    apply drop_append.
Qed.

Lemma lower_append_inv f x y :
  Str.lower f = x +:+ y ->
  exists f1 f2, f = f1 +:+ f2 /\ Str.lower f1 = x /\ Str.lower f2 = y.
Proof.
  revert f. induction x as [|c x IH]; intros f Hf.
  - by exists "", f.
  - rewrite append_cons in Hf. destruct f as [|c' f]; [done|].
    cbn [Str.lower] in Hf. injection Hf as Hc Hf.
    destruct (IH f Hf) as (f1 & f2 & -> & <- & <-).
    exists (String c' f1), f2. rewrite append_cons. cbn [Str.lower].
    by rewrite Hc.
Qed.

Lemma lower_append a b : Str.lower (a +:+ b) = Str.lower a +:+ Str.lower b.
Proof.
  induction a as [|c a IH]; [done|].
  rewrite append_cons. cbn [Str.lower]. by rewrite append_cons, IH.
Qed.

Lemma lower_char_m c : Str.lower_char c = "m"%char <-> c = "m"%char \/ c = "M"%char.
Proof.
  destruct c as [[] [] [] [] [] [] [] []]; vm_compute;
    split; try intros [?|?]; try discriminate; auto.
Qed.

Lemma lower_char_o c : Str.lower_char c = "o"%char <-> c = "o"%char \/ c = "O"%char.
Proof.
  destruct c as [[] [] [] [] [] [] [] []]; vm_compute;
    split; try intros [?|?]; try discriminate; auto.
Qed.

Lemma lower_char_d c : Str.lower_char c = "d"%char <-> c = "d"%char \/ c = "D"%char.
Proof.
  destruct c as [[] [] [] [] [] [] [] []]; vm_compute;
    split; try intros [?|?]; try discriminate; auto.
Qed.

(** The test [f.lower().endswith("mod")] asks for the three letters at the
    end of the name, in either case; it asks for no dot before them. *)
Lemma endswith_lower_mod f :
  Str.endswith (Str.lower f) MOD_EXTENSIONS = true
  <-> exists stem a b c,
        f = stem +:+ String a (String b (String c ""))
        /\ (a = "m" \/ a = "M")%char
        /\ (b = "o" \/ b = "O")%char
        /\ (c = "d" \/ c = "D")%char.
Proof.
  rewrite endswith_iff. unfold MOD_EXTENSIONS. split.
  - intros [stem Hf]. apply lower_append_inv in Hf as (f1 & f2 & -> & _ & Hf2).
    destruct f2 as [|a [|b [|c [|? ?]]]]; try done.
    cbn [Str.lower] in Hf2. injection Hf2 as Ha Hb Hc.
    exists f1, a, b, c. split; [done|].
    by rewrite <- lower_char_m, <- lower_char_o, <- lower_char_d.
  - intros (stem & a & b & c & -> & Ha & Hb & Hc).
    exists (Str.lower stem). rewrite lower_append. cbn [Str.lower].
    apply lower_char_m in Ha. apply lower_char_o in Hb.
    apply lower_char_d in Hc. by rewrite Ha, Hb, Hc.
Qed.

Section LocatorFacts.
Context `{OsPath}.
Variable tree : gmap string node.

Lemma extend_modules_spec module_paths modules :
  Forall (fun path => tree !! path <> Some RegularFile) module_paths ->
  Forall (fun path => tree !! path <> Some Unlistable) module_paths ->
  extend_modules tree module_paths modules
  = Ret (modules ++ candidates tree module_paths)%list.
Proof.
  revert modules.
  induction module_paths as [|path rest IH];
    intros modules Hfiles Hdirs; cbn [extend_modules candidates flat_map].
  - by rewrite app_nil_r.
  - apply Forall_cons in Hfiles as [Hfile Hfiles].
    apply Forall_cons in Hdirs as [Hdir Hdirs].
    unfold path_exists, listdir.
    destruct (tree !! path) as [[|names|]|] eqn:Hp; [done| |done|].
    + rewrite bool_decide_eq_true_2 by eauto. cbn [negb obind].
      rewrite IH by done. by rewrite <- app_assoc.
    + rewrite bool_decide_eq_false_2 by (by intros [? ?]). cbn [negb].
      by rewrite IH.
Qed.

Lemma candidates_skip_missing module_paths :
  candidates tree (List.filter (path_exists tree) module_paths)
  = candidates tree module_paths.
Proof.
  induction module_paths as [|path rest IH]; [done|].
  cbn [List.filter]. unfold path_exists at 1.
  destruct (tree !! path) as [nd|] eqn:Hp.
  - rewrite bool_decide_eq_true_2 by eauto.
    cbn [candidates flat_map]. rewrite Hp. f_equal. apply IH.
  - rewrite bool_decide_eq_false_2 by (by intros [? ?]).
    cbn [candidates flat_map]. rewrite Hp. apply IH.
Qed.

Lemma elem_of_candidates module_paths q :
  q ∈ candidates tree module_paths <->
  exists path names f,
    path ∈ module_paths
    /\ tree !! path = Some (Directory names)
    /\ f ∈ names
    /\ Str.endswith (Str.lower f) MOD_EXTENSIONS = true
    /\ Str.startswith f "moduleManager" = false
    /\ q = normpath (join path f).
Proof.
  unfold candidates. rewrite list_elem_of_In, in_flat_map. split.
  - intros (path & Hpath%list_elem_of_In & Hq).
    destruct (tree !! path) as [[|names|]|] eqn:Hp; try done.
    apply in_map_iff in Hq as (f & <- & Hf).
    apply filter_In in Hf as [Hf%list_elem_of_In Hok].
    unfold is_module_file in Hok.
    apply andb_true_iff in Hok as [Hext Hres%negb_true_iff].
    exists path, names, f. done.
  - intros (path & names & f & Hpath & Hp & Hf & Hext & Hres & ->).
    exists path. split; [by apply list_elem_of_In|]. rewrite Hp.
    apply in_map_iff. exists f. split; [done|].
    apply filter_In. split; [by apply list_elem_of_In|].
    unfold is_module_file. by rewrite Hext, Hres.
Qed.

Lemma insert_by_key_perm key x l : insert_by_key key x l ≡ₚ x :: l.
Proof.
  induction l as [|y l IH]; cbn [insert_by_key]; [done|].
  destruct (String.ltb (key y) (key x)); [|done].
  rewrite IH. apply Permutation_swap.
Qed.

Lemma sort_by_key_perm key l : sort_by_key key l ≡ₚ l.
Proof.
  unfold sort_by_key. induction l as [|x l IH]; cbn [foldr]; [done|].
  by rewrite insert_by_key_perm, IH.
Qed.

Lemma ltb_le a b : String.ltb a b = true -> String.le a b.
Proof.
  unfold String.ltb, String.le, String.leb.
  by destruct (String.compare a b).
Qed.

Lemma not_ltb_le a b : String.ltb a b = false -> String.le b a.
Proof.
  unfold String.ltb, String.le, String.leb.
  rewrite (String.compare_antisym a b).
  by destruct (String.compare b a).
Qed.

Lemma insert_by_key_sorted key x l :
  StronglySorted (key_le key) l ->
  StronglySorted (key_le key) (insert_by_key key x l).
Proof.
  induction 1 as [|y l Hl IH Hy]; cbn [insert_by_key].
  - repeat constructor.
  - destruct (String.ltb (key y) (key x)) eqn:Hlt.
    + constructor; [done|]. rewrite insert_by_key_perm.
      constructor; [|done]. by apply ltb_le.
    + constructor; [by constructor|].
      assert (key_le key x y) as Hxy by by apply not_ltb_le.
      constructor; [done|].
      eapply Forall_impl; [exact Hy|]. intros z Hz. unfold key_le in *.
      by etrans.
Qed.

Lemma sort_by_key_sorted key l : StronglySorted (key_le key) (sort_by_key key l).
Proof.
  unfold sort_by_key. induction l as [|x l IH]; cbn [foldr]; [constructor|].
  by apply insert_by_key_sorted.
Qed.

Lemma ltb_irrefl a : String.ltb a a = false.
Proof.
  unfold String.ltb. assert (String.compare a a = Eq) as ->; [|done].
  induction a as [|c a IH]; cbn [String.compare]; [done|].
  unfold Ascii.compare. by rewrite N.compare_refl.
Qed.

(** The sort is stable: elements with one key keep their order. *)
Lemma sort_by_key_stable key k l :
  List.filter (fun x => String.eqb (key x) k) (sort_by_key key l)
  = List.filter (fun x => String.eqb (key x) k) l.
Proof.
  unfold sort_by_key. induction l as [|x l IH]; cbn [foldr]; [done|].
  cbn [List.filter]. rewrite <- IH. generalize (foldr (insert_by_key key) [] l).
  clear IH. intros s. induction s as [|y s IHs]; cbn [insert_by_key]; [done|].
  destruct (String.ltb (key y) (key x)) eqn:Hlt; [|done].
  cbn [List.filter]. rewrite IHs.
  destruct (String.eqb_spec (key y) k) as [Hy|Hy],
           (String.eqb_spec (key x) k) as [Hx|Hx]; try done.
  rewrite Hy, <- Hx in Hlt. by rewrite ltb_irrefl in Hlt.
Qed.

Lemma candidates_entries module_paths :
  candidates tree module_paths = map entry_path (entries tree module_paths).
Proof.
  induction module_paths as [|path rest IH]; [done|].
  cbn [candidates entries flat_map]. rewrite map_app.
  fold (candidates tree rest) (entries tree rest). rewrite <- IH. f_equal.
  destruct (tree !! path) as [[|names|]|]; try done. by rewrite map_map.
Qed.

Lemma elem_of_entries module_paths path f :
  (path, f) ∈ entries tree module_paths <->
  path ∈ module_paths
  /\ exists names,
       tree !! path = Some (Directory names)
       /\ f ∈ names
       /\ Str.endswith (Str.lower f) MOD_EXTENSIONS = true
       /\ Str.startswith f "moduleManager" = false.
Proof.
  unfold entries. rewrite list_elem_of_In, in_flat_map. split.
  - intros (path' & Hpath%list_elem_of_In & Hq).
    destruct (tree !! path') as [[|names|]|] eqn:Hp; try done.
    apply in_map_iff in Hq as (f' & [= <- <-] & Hf).
    apply filter_In in Hf as [Hf%list_elem_of_In Hok].
    unfold is_module_file in Hok.
    apply andb_true_iff in Hok as [Hext Hres%negb_true_iff].
    split; [done|]. by exists names.
  - intros (Hpath & names & Hp & Hf & Hext & Hres).
    exists path. split; [by apply list_elem_of_In|]. rewrite Hp.
    apply in_map_iff. exists f. split; [done|].
    apply filter_In. split; [by apply list_elem_of_In|].
    unfold is_module_file. by rewrite Hext, Hres.
Qed.

(** Sorting the paths by base name sorts the entries by name, when the base
    name of an entry's path is the entry's name. *)
Lemma insert_entry e found :
  basename (entry_path e) = snd e ->
  Forall (fun x => basename (entry_path x) = snd x) found ->
  StronglySorted name_le found ->
  exists found',
    insert_by_key basename (entry_path e) (map entry_path found)
    = map entry_path found'
    /\ found' ≡ₚ e :: found
    /\ StronglySorted name_le found'.
Proof.
  intros He Hall Hsorted.
  induction Hsorted as [|y l Hl IH Hy]; cbn [map insert_by_key].
  - exists [e]. split_and!; [done..|]. repeat constructor.
  - apply Forall_cons in Hall as [Hyb Hall]. rewrite Hyb, He.
    destruct (String.ltb (snd y) (snd e)) eqn:Hlt.
    + destruct (IH Hall) as (l' & Heq & Hperm & Hs). exists (y :: l').
      split_and!.
      * cbn [map]. by rewrite Heq.
      * rewrite Hperm. apply Permutation_swap.
      * constructor; [done|]. rewrite Hperm.
        constructor; [by apply ltb_le|done].
    + exists (e :: y :: l). split_and!; [done..|].
      constructor; [by constructor|].
      assert (name_le e y) as Hey by by apply not_ltb_le.
      constructor; [done|].
      eapply Forall_impl; [exact Hy|]. intros z Hz. unfold name_le in *.
      by etrans.
Qed.

Lemma sort_entries es :
  Forall (fun x => basename (entry_path x) = snd x) es ->
  exists found,
    sort_by_key basename (map entry_path es) = map entry_path found
    /\ found ≡ₚ es
    /\ StronglySorted name_le found.
Proof.
  unfold sort_by_key. induction 1 as [|e es He Hes IH]; cbn [map foldr].
  - exists []. split_and!; [done..|constructor].
  - destruct IH as (found & Heq & Hperm & Hs). rewrite Heq.
    destruct (insert_entry e found He) as (found' & Heq' & Hperm' & Hs');
      [by rewrite Hperm|done|].
    exists found'. split_and!; [done| |done]. by rewrite Hperm', Hperm.
Qed.

End LocatorFacts.

(** *** Paths on a POSIX platform *)

Lemma append_assoc a b c : (a +:+ b) +:+ c = a +:+ (b +:+ c).
Proof. induction a as [|x a IH]; [done|]. by rewrite !append_cons, IH. Qed.

Lemma split_slash_nonempty s : PosixPath.split_slash s <> [].
Proof.
  destruct s as [|c s]; [done|]. cbn [PosixPath.split_slash].
  destruct (Ascii.eqb c "/"); [done|]. by destruct (PosixPath.split_slash s).
Qed.

Lemma split_slash_plain f :
  no_char "/" f = true -> PosixPath.split_slash f = [f].
Proof.
  induction f as [|c f IH]; [done|]. cbn [no_char PosixPath.split_slash].
  intros [Hc Hf]%andb_true_iff. apply negb_true_iff in Hc. rewrite Hc.
  by rewrite (IH Hf).
Qed.

Lemma split_slash_app x y :
  PosixPath.split_slash (x +:+ String "/" y)
  = (PosixPath.split_slash x ++ PosixPath.split_slash y)%list.
Proof.
  induction x as [|c x IH]; [done|]. rewrite append_cons.
  cbn [PosixPath.split_slash]. destruct (Ascii.eqb c "/"); rewrite IH; [done|].
  pose proof (split_slash_nonempty x).
  by destruct (PosixPath.split_slash x).
Qed.

Lemma split_slash_no_slash s :
  Forall (fun c => no_char "/" c = true) (PosixPath.split_slash s).
Proof.
  induction s as [|c s IH]; [by repeat constructor|].
  cbn [PosixPath.split_slash]. destruct (Ascii.eqb c "/") eqn:Hc.
  - by constructor.
  - destruct (PosixPath.split_slash s) as [|t ts].
    { constructor; [|done]. cbn [no_char]. by rewrite Hc. }
    apply Forall_cons in IH as [Ht Hts]. constructor; [|done].
    cbn [no_char]. by rewrite Hc, Ht.
Qed.

Lemma norm_step_plain i comps f :
  plain f -> PosixPath.norm_step i comps f = (comps ++ [f])%list.
Proof.
  intros (_ & H0 & H1 & H2). unfold PosixPath.norm_step.
  apply String.eqb_neq in H0, H1, H2. by rewrite H0, H1, H2.
Qed.

Lemma fold_norm_step_plain i l acc :
  Forall plain l ->
  fold_left (PosixPath.norm_step i) l acc = (acc ++ l)%list.
Proof.
  intros Hl. revert acc. induction Hl as [|f l Hf _ IH]; intros acc.
  - by rewrite app_nil_r.
  - cbn [fold_left]. rewrite (norm_step_plain _ _ _ Hf), IH.
    by rewrite <- app_assoc.
Qed.

Lemma join_slash_cons x l :
  l <> [] ->
  PosixPath.join_slash (x :: l) = x +:+ String "/" (PosixPath.join_slash l).
Proof. by destruct l. Qed.

Lemma join_slash_snoc l f :
  l <> [] ->
  PosixPath.join_slash (l ++ [f]) = PosixPath.join_slash l +:+ String "/" f.
Proof.
  induction l as [|x l IH]; [done|]. intros _.
  destruct l as [|y l]; [done|].
  change ((x :: y :: l) ++ [f])%list with (x :: ((y :: l) ++ [f]))%list.
  rewrite join_slash_cons by done. rewrite IH by done.
  rewrite (join_slash_cons x (y :: l)) by done.
  by rewrite append_assoc, append_cons.
Qed.

Lemma after_last_slash_plain acc f :
  no_char "/" f = true -> PosixPath.after_last_slash acc f = acc.
Proof.
  revert acc. induction f as [|c f IH]; intros acc; [done|].
  cbn [no_char PosixPath.after_last_slash].
  intros [Hc Hf]%andb_true_iff. apply negb_true_iff in Hc. rewrite Hc.
  by apply IH.
Qed.

Lemma after_last_slash_app acc x f :
  no_char "/" f = true ->
  PosixPath.after_last_slash acc (x +:+ String "/" f) = f.
Proof.
  intros Hf. revert acc. induction x as [|c x IH]; intros acc.
  - change ("" +:+ String "/" f) with (String "/" f).
    cbn [PosixPath.after_last_slash]. change (Ascii.eqb "/" "/") with true.
    cbv iota. by apply after_last_slash_plain.
  - rewrite append_cons. cbn [PosixPath.after_last_slash].
    destruct (Ascii.eqb c "/"); apply IH.
Qed.

Lemma posix_basename_tail x f :
  no_char "/" f = true ->
  basename (OsPath := PosixPath.posix) (x +:+ String "/" f) = f.
Proof. intros Hf. cbn [basename PosixPath.posix]. by apply after_last_slash_app. Qed.

(** The components [normpath] keeps. *)
Lemma fold_norm_step_snoc i l acc f :
  plain f ->
  fold_left (PosixPath.norm_step i) (l ++ [f]) acc
  = (fold_left (PosixPath.norm_step i) l acc ++ [f])%list.
Proof.
  intros Hf. rewrite fold_left_app. cbn [fold_left].
  by apply norm_step_plain.
Qed.

Lemma concat_repeat_slash_S i :
  Str.concat (repeat "/" (S i)) = Str.concat (repeat "/" i) +:+ "/".
Proof.
  induction i as [|i IH]; [reflexivity|].
  change (Str.concat (repeat "/" (S (S i))))
    with ("/" +:+ Str.concat (repeat "/" (S i))).
  rewrite IH at 1.
  change (Str.concat (repeat "/" (S i)))
    with ("/" +:+ Str.concat (repeat "/" i)).
  by rewrite append_assoc.
Qed.

Lemma posix_join_ends d f : plain f -> ends_with_name (PosixPath.posix_join d f) f.
Proof.
  intros (Hs & H0 & _). unfold PosixPath.posix_join.
  destruct (Str.startswith f "/") eqn:Hf.
  { apply startswith_head in Hf as [f' ->]. cbn [no_char] in Hs.
    by change (Ascii.eqb "/" "/") with true in Hs. }
  destruct (String.eqb_spec d "") as [->|Hd]; cbn [orb].
  - by left.
  - destruct (Str.endswith d "/") eqn:He.
    + apply endswith_iff in He as [stem ->]. right. exists stem.
      by rewrite append_assoc.
    + right. by exists d.
Qed.

Lemma posix_normpath_ends p f :
  plain f -> ends_with_name p f ->
  ends_with_name (PosixPath.posix_normpath p) f.
Proof.
  intros Hf Hp. pose proof Hf as (Hs & H0 & _).
  assert (exists l, PosixPath.split_slash p = (l ++ [f])%list) as [l Hl].
  { destruct Hp as [->|[x ->]].
    - exists []. by apply split_slash_plain.
    - exists (PosixPath.split_slash x).
      by rewrite split_slash_app, (split_slash_plain f). }
  assert (p <> "") as Hne.
  { destruct Hp as [->|[x ->]]; [done|]. by destruct x. }
  unfold PosixPath.posix_normpath. apply String.eqb_neq in Hne. rewrite Hne.
  set (i := if Str.startswith p "/" then _ else _).
  rewrite Hl, (fold_norm_step_snoc _ _ _ _ Hf).
  set (cs := fold_left _ l []).
  assert (ends_with_name (Str.concat (repeat "/" i) +:+ PosixPath.join_slash (cs ++ [f])) f)
    as Hends.
  { destruct cs as [|c cs'].
    - cbn [app PosixPath.join_slash]. destruct i as [|i]; [by left|].
      right. exists (Str.concat (repeat "/" i)).
      rewrite concat_repeat_slash_S. by rewrite append_assoc.
    - rewrite join_slash_snoc by done. right. eexists.
      by rewrite <- append_assoc. }
  destruct (String.eqb_spec (Str.concat (repeat "/" i)
                             +:+ PosixPath.join_slash (cs ++ [f])) "") as [He|_];
    [|done].
  rewrite He in Hends. destruct Hends as [<-|[x Hx]]; [done|]. by destruct x.
Qed.

(** The base name of [normpath(join(d, f))] is the listed name [f]. *)
Lemma posix_basename_join d f :
  plain f ->
  basename (OsPath := PosixPath.posix)
    (normpath (OsPath := PosixPath.posix) (join (OsPath := PosixPath.posix) d f)) = f.
Proof.
  intros Hf. cbn [basename normpath join PosixPath.posix].
  destruct (posix_normpath_ends _ f Hf (posix_join_ends d f Hf)) as [->|[x ->]].
  - apply after_last_slash_plain, Hf.
  - apply after_last_slash_app, Hf.
Qed.

Lemma module_file_plain f :
  no_char "/" f = true -> is_module_file f = true -> plain f.
Proof.
  intros Hs [Hext _]%andb_true_iff. split; [done|].
  apply endswith_lower_mod in Hext as (stem & a & b & c & -> & _).
  split_and!; intros Heq; apply (f_equal String.length) in Heq;
    rewrite length_append in Heq; cbn in Heq; lia.
Qed.

(** C8, as amended: given search paths each of which is absent or a
    directory that can be listed, the locator returns one path
    [normpath(join(dir, f))] for every entry of the search list and every
    name [f] listed there whose lower-cased form ends with the extension
    and which does not start with ["moduleManager"]; a directory that comes
    twice in the list gives its files twice.  Absent directories contribute
    nothing and raise nothing.  The base name of each path is the listed
    name, and the result is sorted by that name, not by the path. *)
Theorem get_module_file_paths_spec tree module_paths :
  plain_listings tree ->
  Forall (fun path => tree !! path <> Some RegularFile) module_paths ->
  Forall (fun path => tree !! path <> Some Unlistable) module_paths ->
  discovery_property tree module_paths.
Proof.
  intros Hplain Hfiles Hdirs.
  assert (Forall (fun e => basename (OsPath := PosixPath.posix)
                             (entry_path (H := PosixPath.posix) e) = snd e)
            (entries tree module_paths)) as Hbase.
  { apply Forall_forall.
    intros [path f] (Hpath & names & Hp & Hf & Hext & Hres)%elem_of_entries.
    unfold entry_path. cbn [fst snd].
    apply posix_basename_join, module_file_plain.
    - specialize (Hplain path names Hp). by eapply Forall_forall in Hplain.
    - unfold is_module_file. by rewrite Hext, Hres. }
  destruct (sort_entries (H := PosixPath.posix) _ Hbase)
    as (found & Hsort & Hperm & Hsorted).
  exists found. split_and!.
  - unfold get_module_file_paths. rewrite extend_modules_spec by done.
    cbn [obind app]. by rewrite candidates_entries, Hsort.
  - done.
  - intros path f. rewrite Hperm. apply elem_of_entries.
  - apply endswith_lower_mod.
  - by rewrite Hperm.
  - done.
  - unfold get_module_file_paths. rewrite extend_modules_spec.
    + cbn [obind app].
      by rewrite candidates_skip_missing, candidates_entries, Hsort.
    + apply Forall_forall. intros path Hin%list_elem_of_In.
      apply filter_In in Hin as [Hin%list_elem_of_In _].
      by eapply Forall_forall in Hfiles.
    + apply Forall_forall. intros path Hin%list_elem_of_In.
      apply filter_In in Hin as [Hin%list_elem_of_In _].
      by eapply Forall_forall in Hdirs.
Qed.

Lemma get_module_file_paths_spec_witness :
  discovery_property example_tree ["/A"; "/z"; "/B"].
Proof.
  apply (get_module_file_paths_spec example_tree).
  - intros path names Hl. unfold example_tree in Hl.
    apply lookup_insert_Some in Hl as [[_ [= <-]]|[_ Hl]];
      [by repeat constructor|].
    apply lookup_singleton_Some in Hl as [_ [= <-]]. by repeat constructor.
  - repeat constructor; by vm_compute.
  - repeat constructor; by vm_compute.
Defined.

(** C8 fails as stated: a directory that comes twice in the search list
    gives two paths for its one descriptor file. *)
Lemma get_module_file_paths_listed_twice :
  example_tree !! "/z" = Some (Directory ["bbb.mod"])
  /\ get_module_file_paths (H := PosixPath.posix) example_tree ["/z"; "/z"]
     = Ret ["/z/bbb.mod"; "/z/bbb.mod"].
Proof. split; [reflexivity|]. vm_compute. reflexivity. Qed.

Example get_module_file_paths_example :
  get_module_file_paths (H := PosixPath.posix) example_tree ["/A"; "/z"; "/B"]
  = Ret ["/B/aaa.MOD"; "/z/bbb.mod"; "/B/zzz.mod"].
Proof. vm_compute. reflexivity. Qed.


(** ** Reading back, composing updates, and the other functions *)

Lemma rstrip_cons c s :
  Str.isspace c = false -> Str.rstrip (String c s) = String c (Str.rstrip s).
Proof. intros Hc. cbn [Str.rstrip]. rewrite Hc. by destruct (Str.rstrip s). Qed.

Lemma rstrip_fix s : Str.rstrip (Str.rstrip s) = Str.rstrip s.
Proof.
  induction s as [|c s IH]; [done|]. cbn [Str.rstrip].
  destruct (Str.rstrip s) as [|c' r] eqn:Hr.
  - destruct (Str.isspace c) eqn:Hc; [done|]. cbn [Str.rstrip]. by rewrite Hc.
  - cbn [Str.rstrip]. cbn [Str.rstrip] in IH. by rewrite IH.
Qed.

Lemma lstrip_head s :
  Str.lstrip s = s <->
  match s with String c _ => Str.isspace c = false | EmptyString => True end.
Proof.
  destruct s as [|c s]; [done|]. cbn [Str.lstrip].
  destruct (Str.isspace c) eqn:Hc; [|done]. split; [|done]. intros Heq.
  destruct (lstrip_decompose s) as (pre & Hs & _).
  apply (f_equal String.length) in Heq. rewrite Hs in Heq at 2.
  cbn [String.length] in Heq. rewrite length_append in Heq. lia.
Qed.

Lemma lstrip_lstrip s : Str.lstrip (Str.lstrip s) = Str.lstrip s.
Proof.
  induction s as [|c s IH]; [done|]. cbn [Str.lstrip].
  destruct (Str.isspace c) eqn:Hc; [done|]. cbn [Str.lstrip]. by rewrite Hc.
Qed.

Lemma lstrip_rstrip t : Str.lstrip t = t -> Str.lstrip (Str.rstrip t) = Str.rstrip t.
Proof.
  intros Ht%lstrip_head. destruct t as [|c t]; [done|].
  rewrite (rstrip_cons c t Ht). by apply lstrip_head.
Qed.

Lemma no_char_append a x y :
  no_char a (x +:+ y) = no_char a x && no_char a y.
Proof.
  induction x as [|c x IH]; [done|]. rewrite append_cons. cbn [no_char].
  rewrite IH. by rewrite andb_assoc.
Qed.

Lemma no_char_lstrip a s : no_char a s = true -> no_char a (Str.lstrip s) = true.
Proof.
  induction s as [|c s IH]; [done|]. cbn [Str.lstrip no_char].
  intros [Hc Hs]%andb_true_iff. destruct (Str.isspace c); [auto|].
  cbn [no_char]. by rewrite Hc, Hs.
Qed.

Lemma no_char_rstrip a s : no_char a s = true -> no_char a (Str.rstrip s) = true.
Proof.
  induction s as [|c s IH]; [done|]. cbn [Str.rstrip no_char].
  intros [Hc Hs]%andb_true_iff. specialize (IH Hs).
  destruct (Str.rstrip s) as [|c' r].
  - destruct (Str.isspace c); [done|]. cbn [no_char]. by rewrite Hc.
  - cbn [no_char] in *. by rewrite Hc, IH.
Qed.

Lemma no_char_strip a s : no_char a s = true -> no_char a (Str.strip s) = true.
Proof. intros Hs. by apply no_char_rstrip, no_char_lstrip. Qed.

Lemma rstrip_append_nl b : Str.rstrip (b +:+ Str.nl) = Str.rstrip b.
Proof.
  induction b as [|c b IH]; [done|]. rewrite append_cons. cbn [Str.rstrip].
  by rewrite IH.
Qed.

Lemma strip_append_nl b : Str.strip (b +:+ Str.nl) = Str.strip b.
Proof.
  unfold Str.strip. induction b as [|c b IH]; [done|].
  rewrite append_cons. cbn [Str.lstrip]. destruct (Str.isspace c); [done|].
  by rewrite <- append_cons, rstrip_append_nl.
Qed.

Lemma strip_lstrip_fix s : Str.lstrip (Str.strip s) = Str.strip s.
Proof. unfold Str.strip. apply lstrip_rstrip, lstrip_lstrip. Qed.

Lemma strip_rstrip_fix s : Str.rstrip (Str.strip s) = Str.strip s.
Proof. unfold Str.strip. apply rstrip_fix. Qed.

Lemma clean_strip l : clean l -> Str.strip l = l.
Proof. intros (Hl & Hr & _). unfold Str.strip. by rewrite Hl, Hr. Qed.

Lemma universal_newlines_no_cr s :
  no_char Str.CR (Str.universal_newlines s) = true.
Proof.
  assert (forall n s, String.length s <= n ->
            no_char Str.CR (Str.universal_newlines s) = true) as Hn.
  { clear s. induction n as [|n IH]; intros [|c s] Hlen; try done.
    { cbn in Hlen. lia. }
    cbn [String.length] in Hlen. cbn [Str.universal_newlines].
    destruct (Ascii.eqb c Str.CR) eqn:Hc.
    - destruct s as [|c' s']; [done|]. cbn [String.length] in Hlen.
      destruct (Ascii.eqb c' Str.LF); cbn [no_char];
        (rewrite IH; [done|cbn [String.length]; lia]).
    - cbn [no_char]. rewrite Hc. cbn [negb andb]. apply IH. lia. }
  by apply (Hn (String.length s)).
Qed.

Lemma universal_newlines_id s :
  no_char Str.CR s = true -> Str.universal_newlines s = s.
Proof.
  induction s as [|c s IH]; [done|]. cbn [no_char Str.universal_newlines].
  intros [Hc Hs]%andb_true_iff. apply negb_true_iff in Hc. rewrite Hc.
  by rewrite IH.
Qed.

(** Every line of [keepends] is a body free of line feeds, with or without
    one line feed after it. *)
Lemma keepends_lines s l :
  l ∈ Str.keepends s ->
  exists body, no_char Str.LF body = true /\ (l = body \/ l = body +:+ Str.nl).
Proof.
  revert l. induction s as [|c s IH]; intros l; cbn [Str.keepends].
  - by intros ?%elem_of_nil.
  - destruct (Ascii.eqb c Str.LF) eqn:Hc.
    + apply Ascii.eqb_eq in Hc as ->. intros [->|Hl]%elem_of_cons; [|auto].
      exists "". split; [done|]. by right.
    + destruct (Str.keepends s) as [|l0 ls] eqn:Hk.
      * intros ->%list_elem_of_singleton. exists (String c "").
        cbn [no_char]. rewrite Hc. split; [done|]. by left.
      * intros [->|Hl]%elem_of_cons.
        -- destruct (IH l0 ltac:(left)) as (body & Hb & Hl0).
           exists (String c body). cbn [no_char]. rewrite Hc, Hb.
           split; [done|]. destruct Hl0 as [->| ->]; [by left|by right].
        -- apply IH. by right.
Qed.

Lemma keepends_no_char a s l :
  no_char a s = true -> l ∈ Str.keepends s -> no_char a l = true.
Proof.
  revert l. induction s as [|c s IH]; intros l; cbn [Str.keepends no_char].
  - by intros _ ?%elem_of_nil.
  - intros [Hc Hs]%andb_true_iff.
    destruct (Ascii.eqb c Str.LF) eqn:Hlf.
    + intros [->|Hl]%elem_of_cons; [|auto].
      apply Ascii.eqb_eq in Hlf as ->. cbn [no_char]. by rewrite Hc.
    + destruct (Str.keepends s) as [|l0 ls] eqn:Hk.
      * intros ->%list_elem_of_singleton. cbn [no_char]. by rewrite Hc.
      * intros [->|Hl]%elem_of_cons.
        -- cbn [no_char]. rewrite Hc. cbn. apply IH; [done|left].
        -- apply IH; [done|by right].
Qed.

(** The lines [read_module_file] computes from a text are clean. *)
Lemma read_lines_clean src line :
  line ∈ map Str.strip (Str.readlines src) -> clean line.
Proof.
  intros (raw & -> & Hraw)%list_elem_of_fmap. unfold Str.readlines in Hraw.
  split_and!.
  - apply strip_lstrip_fix.
  - apply strip_rstrip_fix.
  - destruct (keepends_lines _ _ Hraw) as (body & Hb & [->| ->]).
    + by apply no_char_strip.
    + rewrite strip_append_nl. by apply no_char_strip.
  - apply no_char_strip. eapply keepends_no_char; [|exact Hraw].
    apply universal_newlines_no_cr.
Qed.

Lemma keepends_line l rest :
  no_char Str.LF l = true ->
  Str.keepends ((l +:+ Str.nl) +:+ rest) = (l +:+ Str.nl) :: Str.keepends rest.
Proof.
  induction l as [|c l IHl]; intros Hl; [reflexivity|].
  cbn [no_char] in Hl. apply andb_true_iff in Hl as [Hc Hl].
  apply negb_true_iff in Hc. rewrite !append_cons. cbn [Str.keepends].
  by rewrite Hc, (IHl Hl).
Qed.

Lemma keepends_unlines out :
  Forall (fun l => no_char Str.LF l = true) out ->
  Str.keepends (unlines out) = map (fun l => l +:+ Str.nl) out.
Proof.
  unfold unlines. induction 1 as [|l out Hl _ IH]; [done|].
  cbn [map Str.concat]. by rewrite (keepends_line l _ Hl), IH.
Qed.

Lemma no_char_unlines a out :
  a <> Str.LF ->
  Forall (fun l => no_char a l = true) out -> no_char a (unlines out) = true.
Proof.
  intros Ha. unfold unlines. induction 1 as [|l out Hl _ IH]; [done|].
  cbn [map Str.concat]. rewrite !no_char_append, Hl, IH.
  cbn [Str.nl no_char]. apply Ascii.eqb_neq in Ha.
  rewrite Ascii.eqb_sym in Ha. by rewrite Ha.
Qed.

(** Clean lines written with [unlines] are read back as they are. *)
Lemma read_back out :
  Forall clean out -> map Str.strip (Str.readlines (unlines out)) = out.
Proof.
  intros Hout. unfold Str.readlines.
  rewrite universal_newlines_id.
  2: { apply no_char_unlines; [done|].
       eapply Forall_impl; [exact Hout|]. by intros l (_ & _ & _ & ?). }
  rewrite keepends_unlines.
  2: { eapply Forall_impl; [exact Hout|]. by intros l (_ & _ & ? & _). }
  rewrite map_map. rewrite <- (map_id out) at 2.
  apply map_ext_in. intros l Hl%list_elem_of_In.
  rewrite strip_append_nl. apply clean_strip.
  by eapply Forall_forall in Hout.
Qed.

Lemma rewrite_line_match state ident line :
  identity line = Some ident ->
  exists c rest, line = String c rest /\ is_marker c = true
    /\ rewrite_line state ident line
       = String (if state then "+" else "-")%char rest.
Proof.
  intros Hi. destruct (identity_starts_with_marker _ _ Hi) as (c & rest & -> & Hc).
  exists c, rest. split_and!; [done..|].
  unfold rewrite_line, matches. rewrite bool_decide_eq_true_2 by done.
  by destruct state.
Qed.

Lemma rewrite_line_other state ident line :
  identity line <> Some ident -> rewrite_line state ident line = line.
Proof.
  intros Hi. unfold rewrite_line, matches. by rewrite bool_decide_eq_false_2.
Qed.

Lemma marker_char_is_marker (state : bool) :
  is_marker (if state then "+" else "-")%char = true.
Proof. by destruct state. Qed.

(** The rewrite of a line keeps its identity. *)
Lemma identity_rewrite_line state ident line :
  identity (rewrite_line state ident line) = identity line.
Proof.
  destruct (decide (identity line = Some ident)) as [Hi|Hi].
  - destruct (rewrite_line_match state ident line Hi) as (c & rest & -> & Hc & ->).
    apply identity_marker_irrelevant; [apply marker_char_is_marker|done].
  - by rewrite rewrite_line_other.
Qed.

(** Only the last rewrite of a line counts. *)
Lemma rewrite_line_twice s1 s2 ident line :
  rewrite_line s2 ident (rewrite_line s1 ident line) = rewrite_line s2 ident line.
Proof.
  destruct (decide (identity line = Some ident)) as [Hi|Hi].
  - destruct (rewrite_line_match s1 ident line Hi) as (c & rest & Hl & Hc & H1).
    destruct (rewrite_line_match s2 ident line Hi) as (c2 & rest2 & Hl2 & _ & H2).
    rewrite H2. rewrite Hl in Hl2. injection Hl2 as <- <-.
    assert (identity (rewrite_line s1 ident line) = Some ident) as Hi1
      by by rewrite identity_rewrite_line.
    destruct (rewrite_line_match s2 ident _ Hi1) as (c3 & rest3 & Hl3 & _ & H3).
    rewrite H3. rewrite H1 in Hl3. by injection Hl3 as _ <-.
  - by rewrite (rewrite_line_other s1), (rewrite_line_other s2).
Qed.

Lemma rewrite_line_clean state ident line :
  clean line -> clean (rewrite_line state ident line).
Proof.
  intros Hclean. destruct (decide (identity line = Some ident)) as [Hi|Hi].
  2: { by rewrite rewrite_line_other. }
  destruct (rewrite_line_match state ident line Hi) as (c & rest & -> & Hc & ->).
  destruct Hclean as (_ & Hr & Hlf & Hcr).
  pose proof (marker_not_space _ (marker_char_is_marker state)) as Hm.
  rewrite (rstrip_cons c rest (marker_not_space c Hc)) in Hr.
  injection Hr as Hr. cbn [no_char] in Hlf, Hcr.
  apply andb_true_iff in Hlf as [_ Hlf]. apply andb_true_iff in Hcr as [_ Hcr].
  split_and!.
  - by apply lstrip_head.
  - by rewrite (rstrip_cons _ rest Hm), Hr.
  - cbn [no_char]. rewrite Hlf. by destruct state.
  - cbn [no_char]. rewrite Hcr. by destruct state.
Qed.

Lemma rewritten_lines_clean state ident src :
  Forall clean (map (rewrite_line state ident) (map Str.strip (Str.readlines src))).
Proof.
  apply Forall_forall. intros l (l0 & -> & Hl0)%list_elem_of_fmap.
  apply rewrite_line_clean. by apply (read_lines_clean src).
Qed.

(** A matching line that already begins with the marker is left alone. *)
Lemma rewrite_line_same state ident line :
  (identity line = Some ident -> Str.take 1 line = marker state) ->
  rewrite_line state ident line = line.
Proof.
  intros Hsame. destruct (decide (identity line = Some ident)) as [Hi|Hi].
  2: { by rewrite rewrite_line_other. }
  destruct (rewrite_line_match state ident line Hi) as (c & rest & Hl & Hc & ->).
  specialize (Hsame Hi). rewrite Hl in *. cbn in Hsame.
  destruct state; by injection Hsame as ->.
Qed.

(** A successful call, with the whole world it leaves. *)
Lemma update_module_file_ok path state data w d e src :
  fault w = no_fault ->
  heap w !! data = Some d ->
  d !! "ENABLED" = Some e ->
  disk w !! path = Some src ->
  update_module_file path state data w
  = (Ret tt,
     World (<[data := delete "ENABLED" d]> (heap w))
           (<[path := rewritten state (delete "ENABLED" d) src]> (disk w))
           no_fault).
Proof.
  intros Hf Hd He Hsrc.
  rewrite (update_module_file_steps _ _ _ _ d e Hd He), Hf, Hsrc.
  destruct w. cbn in *. by subst.
Qed.

Lemma rewritten_rewritten s1 s2 ident src :
  rewritten s2 ident (rewritten s1 ident src) = rewritten s2 ident src.
Proof.
  unfold rewritten at 1 3. unfold rewritten.
  rewrite (read_back _ (rewritten_lines_clean s1 ident src)).
  rewrite map_map. f_equal. apply map_ext. intros l. apply rewrite_line_twice.
Qed.

(** X2: after a successful update the file reads back, through
    [read_module_file], as exactly the lines that were written: as many as
    the source had, each without whitespace at its ends and without a line
    terminator. *)
Theorem update_module_file_read_back path state data w d e src :
  fault w = no_fault ->
  heap w !! data = Some d ->
  d !! "ENABLED" = Some e ->
  disk w !! path = Some src ->
  read_back_property path state data w src.
Proof.
  intros Hf Hd He Hsrc. unfold read_back_property. cbv zeta.
  rewrite (update_module_file_ok _ _ _ _ d e src Hf Hd He Hsrc). cbn [snd].
  eexists. split_and!.
  - cbn [disk]. by rewrite lookup_insert_eq.
  - rewrite read_module_file_run. cbn [fault disk].
    rewrite lookup_insert_eq. unfold rewritten.
    by rewrite (read_back _ (rewritten_lines_clean _ _ src)).
  - by rewrite !length_map.
  - apply rewritten_lines_clean.
Qed.

(** X3: of two successive updates for one identity only the second counts:
    the file is what the second update alone would have made of the
    original, and repeating an update changes nothing more. *)
Theorem update_module_file_last_write path s1 s2 data1 data2 w d1 d2 e1 e2 src :
  fault w = no_fault ->
  data1 <> data2 ->
  heap w !! data1 = Some d1 ->
  heap w !! data2 = Some d2 ->
  d1 !! "ENABLED" = Some e1 ->
  d2 !! "ENABLED" = Some e2 ->
  delete "ENABLED" d1 = delete "ENABLED" d2 ->
  disk w !! path = Some src ->
  last_write_property path s1 s2 data1 data2 w.
Proof.
  intros Hf Hne Hd1 Hd2 He1 He2 Hid Hsrc. unfold last_write_property. cbv zeta.
  rewrite (update_module_file_ok _ s1 _ _ d1 e1 src Hf Hd1 He1 Hsrc). cbn [snd].
  rewrite (update_module_file_ok _ s2 _ w d2 e2 src Hf Hd2 He2 Hsrc).
  rewrite (update_module_file_ok _ s2 data2 _ d2 e2
             (rewritten s1 (delete "ENABLED" d1) src)); cbn [fault heap disk];
    [|done|by rewrite lookup_insert_ne|done|by rewrite lookup_insert_eq].
  cbn [fst snd disk]. rewrite insert_insert_eq, <- Hid, rewritten_rewritten.
  split_and!; [done..|]. by intros ->.
Qed.

(** X4: the dictionary handed to [update_module_file] cannot be handed to it
    again: the first call removed ENABLED, so the second raises [KeyError]
    before it touches the file. *)
Theorem update_module_file_reuse_raises path s1 s2 data w d :
  heap w !! data = Some d ->
  reuse_property path s1 s2 data w.
Proof.
  intros Hd. unfold reuse_property. cbv zeta.
  apply (update_module_file_KeyError _ _ _ _ (delete "ENABLED" d)).
  - rewrite (update_module_file_heap path s1 data w d Hd).
    by rewrite lookup_insert_eq.
  - by rewrite lookup_delete_eq.
Qed.

(** X5: switching a record to the other state and back restores the file
    byte for byte, when the file consists of clean lines each closed by one
    newline and every line with the record's identity began with the marker
    of the state returned to. *)
Theorem update_module_file_toggle_back path state data1 data2 w d1 d2 e1 e2 src :
  fault w = no_fault ->
  data1 <> data2 ->
  heap w !! data1 = Some d1 ->
  heap w !! data2 = Some d2 ->
  d1 !! "ENABLED" = Some e1 ->
  d2 !! "ENABLED" = Some e2 ->
  delete "ENABLED" d1 = delete "ENABLED" d2 ->
  disk w !! path = Some src ->
  unlines (map Str.strip (Str.readlines src)) = src ->
  (forall raw, raw ∈ Str.readlines src ->
     identity (Str.strip raw) = Some (delete "ENABLED" d1) ->
     Str.take 1 (Str.strip raw) = marker state) ->
  toggle_back_property path state data1 data2 w.
Proof.
  intros Hf Hne Hd1 Hd2 He1 He2 Hid Hsrc Hnorm Hsame.
  unfold toggle_back_property. cbv zeta.
  rewrite (update_module_file_ok _ _ _ _ d1 e1 src Hf Hd1 He1 Hsrc). cbn [snd].
  rewrite (update_module_file_ok _ state data2 _ d2 e2
             (rewritten (negb state) (delete "ENABLED" d1) src));
    cbn [fault heap disk];
    [|done|by rewrite lookup_insert_ne|done|by rewrite lookup_insert_eq].
  cbn [fst snd disk]. split; [done|].
  rewrite insert_insert_eq, <- Hid, rewritten_rewritten.
  assert (rewritten state (delete "ENABLED" d1) src = src) as ->.
  { unfold rewritten. etrans; [|exact Hnorm]. f_equal.
    rewrite <- (map_id (map Str.strip (Str.readlines src))) at 2.
    apply map_ext_in. intros line Hin%list_elem_of_In.
    apply list_elem_of_fmap in Hin as (raw & -> & Hraw).
    apply rewrite_line_same. by apply Hsame. }
  by apply insert_id.
Qed.

Lemma split_tokens s : Forall token (Str.split s).
Proof.
  induction s as [|c s IH]; [constructor|]. rewrite split_cons.
  destruct (Str.isspace c) eqn:Hc; [done|].
  assert (token (String c "")) as Hone.
  { split; [done|]. cbn. by rewrite Hc. }
  destruct s as [|c' s']; [by apply Forall_singleton|].
  destruct (Str.isspace c'); [by constructor|].
  destruct (Str.split (String c' s')) as [|t ts]; [by apply Forall_singleton|].
  apply Forall_cons in IH as [[_ Ht] Hts]. constructor; [|done].
  split; [done|]. cbn. by rewrite Hc, Ht.
Qed.

Lemma no_space_drop n t : no_space t = true -> no_space (Str.drop n t) = true.
Proof.
  revert t. induction n as [|n IH]; intros [|c t]; try done.
  cbn [no_space Str.drop]. intros [_ Ht]%andb_true_iff. by apply IH.
Qed.

Lemma parse_truthy line d :
  parse_module_line line = Ret (Some d) -> truthy (Some d) = true.
Proof.
  intros [e He]%parse_module_line_enabled. unfold truthy.
  rewrite bool_decide_eq_false_2; [done|]. intros ->.
  by rewrite lookup_empty in He.
Qed.

Lemma filter_lines_spec lines :
  filter_lines lines = Ret (omap record_of lines).
Proof.
  induction lines as [|line rest IH]; [done|]. cbn [filter_lines omap list_omap].
  unfold record_of at 1.
  destruct (parse_module_line_total line) as [[d|] Hp]; rewrite Hp, IH;
    cbn [obind]; [|done].
  by rewrite (parse_truthy line d Hp).
Qed.

Lemma filter_module_file_run path w :
  filter_module_file path w
  = match fault w, disk w !! path with
    | fail_open_read, _ | _, None => (Raise OSError, w)
    | fail_decode, Some _ => (Raise UnicodeDecodeError, w)
    | _, Some src =>
        (Ret (omap record_of (map Str.strip (Str.readlines src))), w)
    end.
Proof.
  unfold filter_module_file, mbind, lift. rewrite read_module_file_run.
  destruct (fault w), (disk w !! path); try done; by rewrite filter_lines_spec.
Qed.

Lemma record_of_shape line r : record_of line = Some r -> record_shape r.
Proof.
  unfold record_of. destruct (parse_module_line line) as [[d|]|] eqn:Hp; [|done..].
  intros [= <-].
  apply parse_module_line_Some in Hp as (Hm & p0 & p1 & p2 & p3 & Hpos & ->).
  assert (exists c tok, p0 = String c tok /\ is_marker c = true) as Hp0.
  { destruct line as [|c rest]; [done|]. cbn in Hm.
    destruct (split_head c rest (marker_not_space c Hm)) as (tok & toks & Hs).
    rewrite Hs, (positional_cons _ _ (marker_not_attr c tok Hm)) in Hpos.
    injection Hpos as <- _. eauto. }
  assert (Forall token [p0; p1; p2; p3]) as Htok.
  { rewrite <- Hpos. unfold positional. apply Forall_forall.
    intros t Ht%list_elem_of_In. apply filter_In in Ht as [Ht%list_elem_of_In _].
    by eapply Forall_forall in Ht; [|apply split_tokens]. }
  apply Forall_cons in Htok as [H0 Htok]. apply Forall_cons in Htok as [H1 Htok].
  apply Forall_cons in Htok as [H2 Htok]. apply Forall_cons in Htok as [H3 _].
  split_and!.
  - intros key Hkey. unfold POSITIONAL_KEYS in Hkey.
    repeat (apply elem_of_cons in Hkey as [->|Hkey]);
      [eexists; split; [by simplify_map_eq|done]..|].
    by apply elem_of_nil in Hkey.
  - intros key [v Hv]. apply elem_of_app.
    destruct (decide (key ∈ POSITIONAL_KEYS)) as [Hin|Hnot]; [by left|right].
    unfold POSITIONAL_KEYS in Hnot. rewrite !elem_of_cons in Hnot.
    rewrite !lookup_insert_ne in Hv by (intros <-; apply Hnot; auto 10).
    destruct (attributes_lookup (Str.split line) key) as [Hval _].
    destruct (Hval v Hv) as (t & _ & Hk & _). by eapply attr_key_in.
  - intros key v Hkey Hv.
    destruct (argument_not_positional_key key Hkey) as (? & ? & ? & ?).
    rewrite !lookup_insert_ne in Hv by done.
    destruct (attributes_lookup (Str.split line) key) as [Hval _].
    destruct (Hval v Hv) as (t & Ht & _ & ->). apply no_space_drop.
    by pose proof (proj1 (Forall_forall _ _) (split_tokens line) t Ht) as [_ ?].
  - destruct Hp0 as (c & tok & -> & Hc). exists c, tok.
    split; [by simplify_map_eq|done].
Qed.

(** A record line with another marker is the same record with another
    ENABLED. *)
Lemma parse_remarker c c' rest d :
  is_marker c = true -> is_marker c' = true ->
  parse_module_line (String c rest) = Ret (Some d) ->
  exists tok, d !! "ENABLED" = Some (String c tok)
    /\ parse_module_line (String c' rest)
       = Ret (Some (<["ENABLED" := String c' tok]> d)).
Proof.
  intros Hc Hc'. rewrite !parse_module_line_spec. cbn [starts_with_marker].
  rewrite Hc, Hc'. destruct (split_head_uniform rest) as (t & ts & Hs).
  rewrite (Hs c (marker_not_space c Hc)), (Hs c' (marker_not_space c' Hc')).
  rewrite !positional_cons, !attributes_cons by by apply marker_not_attr.
  destruct (positional ts) as [|p1 [|p2 [|p3 [|? ?]]]]; try done.
  intros [= <-]. exists t. split; [by simplify_map_eq|]. do 2 f_equal.
  apply map_eq. intros k. rewrite !lookup_insert.
  repeat case_decide; congruence.
Qed.

Lemma omap_length_le {A B} (f : A -> option B) (l : list A) :
  length (omap f l) <= length l.
Proof.
  induction l as [|x l IH]; [done|]. cbn [omap list_omap length].
  destruct (f x); cbn [length]; lia.
Qed.

(** X6: [filter_module_file] changes nothing.  It raises [OSError] when the
    file is missing or cannot be opened and [UnicodeDecodeError] when the
    file opens but does not decode; in every other case it yields the
    records of the lines that parse, in file order, never more than there
    are lines.  Every record has ENABLED, NAME, VERSION and PATH, each a
    non-empty token without whitespace, ENABLED beginning with a marker; any
    further key is one of [MODULE_ARGUMENTS], its value free of
    whitespace. *)
Theorem filter_module_file_records path w :
  filter_records_property path w.
Proof.
  unfold filter_records_property. cbv zeta. rewrite filter_module_file_run.
  split_and!.
  - by destruct (fault w), (disk w !! path).
  - intros [-> | ->]; [done|]. by destruct (fault w).
  - by intros -> [src ->].
  - intros src Hf Hd ->. eexists. split_and!.
    + by destruct (fault w).
    + done.
    + rewrite <- (length_map Str.strip). apply omap_length_le.
    + apply Forall_forall. intros r (line & _ & Hr)%list_elem_of_omap.
      by eapply record_of_shape.
Qed.

Lemma record_of_Some line d :
  record_of line = Some d <-> parse_module_line line = Ret (Some d).
Proof.
  unfold record_of. destruct (parse_module_line line) as [[d'|]|];
    split; intros; simplify_eq; done.
Qed.

Lemma identity_record_of line :
  identity line = delete "ENABLED" <$> record_of line.
Proof.
  unfold identity, record_of. by destruct (parse_module_line line) as [[d|]|].
Qed.

Lemma omap_record_of_rewrite state ident (lines : list string) :
  Forall2 (fun r r' =>
             delete "ENABLED" r' = delete "ENABLED" r
             /\ (delete "ENABLED" r = ident ->
                 exists c tok,
                   r !! "ENABLED" = Some (String c tok)
                   /\ r' !! "ENABLED" = Some (marker state +:+ tok))
             /\ (delete "ENABLED" r <> ident -> r' = r))
          (omap record_of lines)
          (omap record_of (map (rewrite_line state ident) lines)).
Proof.
  induction lines as [|line rest IH]; [constructor|].
  cbn [map omap list_omap].
  destruct (decide (identity line = Some ident)) as [Hi|Hi].
  - destruct (rewrite_line_match state ident line Hi) as (c & tl & -> & Hc & ->).
    rewrite identity_record_of in Hi.
    destruct (record_of (String c tl)) as [d|] eqn:Hr; [|done].
    injection Hi as Hi. apply record_of_Some in Hr.
    destruct (parse_remarker c _ tl d Hc (marker_char_is_marker state) Hr)
      as (tok & Hen & Hp'). apply record_of_Some in Hp'. rewrite Hp'.
    constructor; [|exact IH]. split_and!.
    + by rewrite delete_insert_eq.
    + intros _. exists c, tok. split; [done|]. rewrite lookup_insert_eq.
      by destruct state.
    + by intros [].
  - rewrite (rewrite_line_other state ident line Hi).
    rewrite identity_record_of in Hi.
    destruct (record_of line) as [d|]; [|exact IH].
    constructor; [|exact IH]. split_and!; [done| |done].
    intros Heq. destruct Hi. cbn. by rewrite Heq.
Qed.

(** X7: an update neither adds nor removes nor reorders records, and alters
    none of their fields but ENABLED: the records carrying the identity
    asked for get the new marker as the first character of ENABLED, all
    others are as they were. *)
Theorem update_module_file_keeps_records path state data w d e src :
  fault w = no_fault ->
  heap w !! data = Some d ->
  d !! "ENABLED" = Some e ->
  disk w !! path = Some src ->
  records_kept_property path state data w d.
Proof.
  intros Hf Hd He Hsrc. unfold records_kept_property. cbv zeta.
  rewrite (update_module_file_ok _ _ _ _ d e src Hf Hd He Hsrc). cbn [snd].
  rewrite !filter_module_file_run. cbn [fault disk].
  rewrite Hf, Hsrc, lookup_insert_eq. unfold rewritten.
  rewrite (read_back _ (rewritten_lines_clean _ _ src)).
  eexists _, _. split_and!; [done..|]. apply omap_record_of_rewrite.
Qed.

Lemma emit_enabled_changed_ok self_data path state w d e src :
  fault w = no_fault ->
  heap w !! self_data = Some d ->
  d !! "ENABLED" = Some e ->
  disk w !! path = Some src ->
  emit_enabled_changed self_data path state w
  = (Ret tt,
     World (<[fresh (dom (heap w)) := delete "ENABLED" d]> (heap w))
           (<[path := rewritten state (delete "ENABLED" d) src]> (disk w))
           no_fault).
Proof.
  intros Hf Hd He Hsrc. unfold emit_enabled_changed.
  rewrite (mbind_ret _ _ _ _ _ (dict_copy_run self_data w d Hd)).
  erewrite (update_module_file_ok _ _ _ _ d e src).
  - destruct w. cbn. by rewrite insert_insert_eq.
  - by destruct w.
  - destruct w. cbn. by rewrite lookup_insert_eq.
  - done.
  - by destruct w.
Qed.

(** X9: the widget can emit its signal again and again: every emission
    works on a fresh copy, so it returns normally and leaves the widget's
    dictionary as it was, and after two emissions the file is what the
    second alone would have made of it. *)
Theorem emit_enabled_changed_twice self_data path s1 s2 w d e src :
  fault w = no_fault ->
  heap w !! self_data = Some d ->
  d !! "ENABLED" = Some e ->
  disk w !! path = Some src ->
  emit_twice_property self_data path s1 s2 w.
Proof.
  intros Hf Hd He Hsrc. unfold emit_twice_property. cbv zeta.
  rewrite (emit_enabled_changed_ok _ _ s1 _ d e src Hf Hd He Hsrc).
  rewrite (emit_enabled_changed_ok _ _ s2 w d e src Hf Hd He Hsrc).
  cbn [fst snd].
  assert (fresh (dom (heap w)) <> self_data) as Hne.
  { intros Heq. apply (is_fresh (dom (heap w))). rewrite Heq.
    apply elem_of_dom. eauto. }
  rewrite (emit_enabled_changed_ok _ _ s2 _ d e
             (rewritten s1 (delete "ENABLED" d) src)); cbn [fault heap disk];
    [|done|by rewrite lookup_insert_ne|done|by rewrite lookup_insert_eq].
  cbn [fst snd heap disk]. split_and!; [done..| |].
  - set (h1 := <[fresh (dom (heap w)) := delete "ENABLED" d]> (heap w)).
    assert (fresh (dom h1) <> self_data) as Hne2.
    { intros Heq. apply (is_fresh (dom h1)). rewrite Heq.
      apply elem_of_dom. unfold h1. rewrite lookup_insert_ne by done. eauto. }
    rewrite lookup_insert_ne by done. unfold h1.
    by rewrite lookup_insert_ne.
  - by rewrite insert_insert_eq, rewritten_rewritten.
Qed.

Lemma is_compatible_agree env d d' :
  (forall key, key ∈ MODULE_ARGUMENTS -> d !! key = d' !! key) ->
  is_compatible env d = is_compatible env d'.
Proof.
  intros Hsame. apply eq_true_iff_eq. unfold is_compatible.
  rewrite !is_compatible_items_iff.
  assert (forall key value, (key, value) ∈ MAYA_ARGUMENTS env ->
            key ∈ MODULE_ARGUMENTS) as Hkeys.
  { intros key value Hin.
    change MODULE_ARGUMENTS with (map fst (MAYA_ARGUMENTS env)).
    apply list_elem_of_fmap. by exists (key, value). }
  split; intros H key value Hin v Hv; apply (H key value Hin v).
  - by rewrite (Hsame key (Hkeys key value Hin)).
  - by rewrite <- (Hsame key (Hkeys key value Hin)).
Qed.

Lemma is_compatible_identity env r r' :
  delete "ENABLED" r' = delete "ENABLED" r ->
  is_compatible env r' = is_compatible env r.
Proof.
  intros Hid. apply is_compatible_agree. intros key Hkey.
  destruct (argument_not_positional_key key Hkey) as (Hne & _).
  rewrite <- (lookup_delete_ne r' "ENABLED" key) by done.
  rewrite <- (lookup_delete_ne r "ENABLED" key) by done. by rewrite Hid.
Qed.

(** X10: [is_compatible] looks at the keys of [MAYA_ARGUMENTS] only: records
    that agree on them are compatible together; so a record is as
    compatible as any record of the same identity, whatever its ENABLED. *)
Theorem is_compatible_same_arguments env d d' :
  (forall key, key ∈ MODULE_ARGUMENTS -> d !! key = d' !! key) ->
  is_compatible env d = is_compatible env d'
  /\ is_compatible env (delete "ENABLED" d) = is_compatible env d
  /\ forall v, is_compatible env (<["ENABLED" := v]> d) = is_compatible env d.
Proof.
  intros Hsame. split_and!.
  - by apply is_compatible_agree.
  - apply is_compatible_identity. apply delete_delete_eq.
  - intros v. apply is_compatible_identity. apply delete_insert_eq.
Qed.

Section LocatorMore.
Context `{OsPath}.
Variable tree : gmap string node.

Lemma extend_modules_not_listed module_paths modules :
  Exists (fun path => tree !! path = Some RegularFile
                      \/ tree !! path = Some Unlistable) module_paths ->
  extend_modules tree module_paths modules = Raise OSError.
Proof.
  intros Hex. revert modules.
  induction module_paths as [|path rest IH]; intros modules.
  - by apply Exists_nil in Hex.
  - cbn [extend_modules]. unfold path_exists, listdir.
    destruct (tree !! path) as [[|names|]|] eqn:Hp.
    + by rewrite bool_decide_eq_true_2 by eauto.
    + rewrite bool_decide_eq_true_2 by eauto. cbn [negb obind].
      apply IH. apply Exists_cons in Hex as [[?|?]|Hex]; [congruence..|done].
    + by rewrite bool_decide_eq_true_2 by eauto.
    + rewrite bool_decide_eq_false_2 by (by intros [? ?]). cbn [negb].
      apply IH. apply Exists_cons in Hex as [[?|?]|Hex]; [congruence..|done].
Qed.

Lemma listed_or_not module_paths :
  (Forall (fun path => tree !! path <> Some RegularFile) module_paths
   /\ Forall (fun path => tree !! path <> Some Unlistable) module_paths)
  \/ Exists (fun path => tree !! path = Some RegularFile
                         \/ tree !! path = Some Unlistable) module_paths.
Proof.
  induction module_paths as [|path rest [[IHf IHd]|IH]].
  - left. split; constructor.
  - destruct (tree !! path) as [[|names|]|] eqn:Hp.
    + right. left. by left.
    + left. split; (constructor; [by rewrite Hp|done]).
    + right. left. by right.
    + left. split; (constructor; [by rewrite Hp|done]).
  - right. by right.
Qed.

(** X12: the locator raises exactly when one of the search paths names
    something that exists and cannot be listed: a file, or a directory that
    [os.listdir] fails on.  What it raises is the [OSError] of
    [os.listdir]; a path that does not exist never makes it raise. *)
Theorem get_module_file_paths_raises module_paths :
  (get_module_file_paths tree module_paths = Raise OSError
   <-> Exists (fun path => tree !! path = Some RegularFile
                           \/ tree !! path = Some Unlistable) module_paths)
  /\ (forall e, get_module_file_paths tree module_paths = Raise e -> e = OSError)
  /\ (Forall (fun path => tree !! path = None) module_paths ->
      get_module_file_paths tree module_paths = Ret []).
Proof.
  assert (Forall (fun path => tree !! path = None) module_paths ->
          get_module_file_paths tree module_paths = Ret []) as Habsent.
  { intros Hnone. unfold get_module_file_paths.
    rewrite extend_modules_spec.
    - cbn [obind app].
      replace (candidates tree module_paths) with (@nil string); [done|].
      induction Hnone as [|path rest Hp _ IH]; [done|].
      cbn [candidates flat_map]. by rewrite Hp.
    - eapply Forall_impl; [exact Hnone|]. by intros path ->.
    - eapply Forall_impl; [exact Hnone|]. by intros path ->. }
  destruct (listed_or_not module_paths) as [[Hfiles Hdirs]|Hex]; last first.
  - assert (get_module_file_paths tree module_paths = Raise OSError) as Hr.
    { unfold get_module_file_paths.
      by rewrite (extend_modules_not_listed _ _ Hex). }
    rewrite Hr. split_and!; [done| |by rewrite <- Hr]. by intros e [= <-].
  - assert (get_module_file_paths tree module_paths
            = Ret (sort_by_key basename (candidates tree module_paths))) as Hr.
    { unfold get_module_file_paths. by rewrite extend_modules_spec. }
    rewrite Hr. split_and!; [|done|by rewrite <- Hr].
    split; [done|]. intros Hex.
    apply Exists_exists in Hex as (path & Hin & [Hreg|Hun]).
    + by eapply Forall_forall in Hfiles.
    + by eapply Forall_forall in Hdirs.
Qed.

(** X13: descriptor files with one base name come out in the order of the
    search list, and within one directory in the order of its listing: the
    sort never swaps two paths whose base names are equal. *)
Theorem get_module_file_paths_stable module_paths :
  Forall (fun path => tree !! path <> Some RegularFile) module_paths ->
  Forall (fun path => tree !! path <> Some Unlistable) module_paths ->
  stable_order_property tree module_paths.
Proof.
  intros Hfiles Hdirs.
  exists (sort_by_key basename (candidates tree module_paths)).
  split.
  - unfold get_module_file_paths. by rewrite extend_modules_spec.
  - intros name. apply sort_by_key_stable.
Qed.

End LocatorMore.

Lemma split_on_cons sep c s :
  split_on sep (String c s)
  = if Ascii.eqb c sep then "" :: split_on sep s
    else match split_on sep s with
         | t :: ts => String c t :: ts
         | [] => [String c ""]
         end.
Proof. reflexivity. Qed.

Lemma split_on_nonempty sep s : split_on sep s <> [].
Proof.
  destruct s as [|c s]; [done|]. rewrite split_on_cons.
  destruct (Ascii.eqb c sep); [done|]. by destruct (split_on sep s).
Qed.

Lemma join_on_cons sep x y l :
  join_on sep (x :: y :: l) = x +:+ String sep (join_on sep (y :: l)).
Proof. reflexivity. Qed.

Lemma split_on_join sep s : join_on sep (split_on sep s) = s.
Proof.
  induction s as [|c s IH]; [done|]. rewrite split_on_cons.
  destruct (Ascii.eqb_spec c sep) as [->|Hne].
  - pose proof (split_on_nonempty sep s) as Hn.
    destruct (split_on sep s) as [|y l]; [done|].
    rewrite join_on_cons, IH. done.
  - pose proof (split_on_nonempty sep s) as Hn.
    destruct (split_on sep s) as [|t [|y l]]; [done|..].
    + cbn in IH. cbn. by rewrite IH.
    + rewrite !join_on_cons in *. rewrite append_cons. by rewrite IH.
Qed.

Lemma split_on_no_sep sep s :
  Forall (fun p => no_char sep p = true) (split_on sep s).
Proof.
  induction s as [|c s IH]; [by apply Forall_singleton|]. rewrite split_on_cons.
  destruct (Ascii.eqb c sep) eqn:Hc; [by constructor|].
  destruct (split_on sep s) as [|t ts].
  - apply Forall_singleton. cbn. by rewrite Hc.
  - apply Forall_cons in IH as [Ht Hts]. constructor; [|done].
    cbn. by rewrite Hc, Ht.
Qed.

Lemma split_on_piece sep x :
  no_char sep x = true -> split_on sep x = [x].
Proof.
  induction x as [|c x IH]; [done|]. cbn [no_char].
  intros [Hc Hx]%andb_true_iff. apply negb_true_iff in Hc.
  by rewrite split_on_cons, Hc, (IH Hx).
Qed.

Lemma split_on_append sep x rest :
  no_char sep x = true ->
  split_on sep (x +:+ String sep rest) = x :: split_on sep rest.
Proof.
  induction x as [|c x IH].
  - intros _. change ("" +:+ String sep rest) with (String sep rest).
    by rewrite split_on_cons, Ascii.eqb_refl.
  - cbn [no_char]. intros [Hc Hx]%andb_true_iff. apply negb_true_iff in Hc.
    by rewrite append_cons, split_on_cons, Hc, (IH Hx).
Qed.

Lemma join_on_split sep l :
  l <> [] -> Forall (fun p => no_char sep p = true) l ->
  split_on sep (join_on sep l) = l.
Proof.
  intros Hl Hall. induction Hall as [|x l Hx Hall IH]; [done|].
  destruct l as [|y l].
  - by apply split_on_piece.
  - rewrite join_on_cons, (split_on_append _ _ _ Hx). f_equal. by apply IH.
Qed.

Lemma no_char_replace old new s :
  new <> old -> no_char old (replace_char old new s) = true.
Proof.
  intros Hne. induction s as [|c s IH]; [done|]. cbn [replace_char no_char].
  rewrite IH. destruct (Ascii.eqb_spec c old) as [->|Hc].
  - apply Ascii.eqb_neq in Hne. by rewrite Hne.
  - apply Ascii.eqb_neq in Hc. by rewrite Hc.
Qed.

(** X14: [get_module_paths] raises [KeyError] when MAYA_MODULE_PATH is not
    set.  Otherwise it returns at least one path, none containing the
    separator, and the list is the one and only such list that, joined with
    the separator, gives the variable's value. *)
Theorem get_module_paths_spec pathsep environ :
  module_paths_property pathsep environ.
Proof.
  unfold module_paths_property, get_module_paths.
  destruct (environ !! "MAYA_MODULE_PATH") as [value|]; [|done].
  eexists. split_and!; [done| | | |].
  - apply split_on_nonempty.
  - apply split_on_join.
  - apply split_on_no_sep.
  - intros l Hl Hall <-. by rewrite join_on_split.
Qed.

Section IconPath.
Context `{OsPath}.
Variable tree : gmap string node.

Lemma find_icon_spec dirs file_name :
  (find_icon tree dirs file_name = None <->
   Forall (fun d => path_exists tree (join d file_name) = false) dirs)
  /\ (forall p, find_icon tree dirs file_name = Some p ->
        exists i d,
          dirs !! i = Some d
          /\ path_exists tree (join d file_name) = true
          /\ p = replace_char backslash "/" (join d file_name)
          /\ forall j d', j < i -> dirs !! j = Some d' ->
               path_exists tree (join d' file_name) = false).
Proof.
  induction dirs as [|d dirs [IHn IHs]]; cbn [find_icon].
  - split; [done|]. by intros p [=].
  - destruct (path_exists tree (join d file_name)) eqn:Hd.
    + split.
      * split; [done|]. intros [Hd' _]%Forall_cons. congruence.
      * intros p [= <-]. exists 0, d. split_and!; try done. intros j d' Hj. lia.
    + split.
      * rewrite IHn. split; [by constructor|by intros [_ ?]%Forall_cons].
      * intros p Hp. destruct (IHs p Hp) as (i & d0 & Hi & Hex & -> & Hbefore).
        exists (S i), d0. split_and!; try done.
        intros [|j] d' Hj Hlook; cbn in Hlook; [by simplify_eq|].
        apply (Hbefore j d'); [lia|done].
Qed.

(** X15: [get_icon_path] returns the path of the icon in the first directory
    of XBMLANGPATH that has it, with every backslash turned into a slash,
    and [None] exactly when no directory has it. *)
Theorem get_icon_path_spec pathsep environ file_name value :
  environ !! "XBMLANGPATH" = Some value ->
  icon_path_property pathsep environ tree file_name value.
Proof.
  intros Henv. unfold icon_path_property, get_icon_path. rewrite Henv. cbv zeta.
  destruct (find_icon_spec (split_on pathsep value) file_name) as [Hn Hs].
  eexists. split_and!; [done|exact Hn|].
  intros p Hp. destruct (Hs p Hp) as (i & d & Hi & Hex & -> & Hb).
  split; [by apply no_char_replace|]. exists i, d. done.
Qed.

End IconPath.

Lemma startswith_slash s : Str.startswith (String "/" s) "/" = true.
Proof. unfold Str.startswith. cbn. by destruct s. Qed.

Lemma posix_isabs_cons s :
  PosixAbs.posix_isabs s = true <-> exists s', s = String "/" s'.
Proof.
  unfold PosixAbs.posix_isabs. split.
  - by intros ?%startswith_head.
  - intros [s' ->]. apply startswith_slash.
Qed.

Lemma posix_normpath_abs p :
  PosixAbs.posix_isabs p = true ->
  PosixAbs.posix_isabs (PosixPath.posix_normpath p) = true.
Proof.
  intros [p' ->]%posix_isabs_cons. unfold PosixPath.posix_normpath.
  change (String "/" p' =? "")%string with false.
  rewrite startswith_slash. cbv iota.
  destruct (Str.startswith (String "/" p') "//"
            && negb (Str.startswith (String "/" p') "///"));
    cbn [repeat Str.concat]; rewrite !append_cons;
    change (String "/" ?x =? "")%string with false; cbv iota;
    apply startswith_slash.
Qed.

Lemma posix_join_abs a b :
  PosixAbs.posix_isabs a = true ->
  PosixAbs.posix_isabs (PosixPath.posix_join a b) = true.
Proof.
  intros [a' ->]%posix_isabs_cons. unfold PosixPath.posix_join.
  destruct (Str.startswith b "/") eqn:Hb; [done|].
  destruct (_ || _); rewrite append_cons; apply startswith_slash.
Qed.

Lemma rstrip_slash_cons c s :
  Ascii.eqb c "/" = false ->
  PosixAbs.rstrip_slash (String c s) = String c (PosixAbs.rstrip_slash s).
Proof.
  intros Hc. cbn [PosixAbs.rstrip_slash]. rewrite Hc.
  by destruct (PosixAbs.rstrip_slash s).
Qed.

Lemma rstrip_slash_abs s :
  PosixAbs.all_slashes (String "/" s) = false ->
  exists r, PosixAbs.rstrip_slash (String "/" s) = String "/" r.
Proof.
  cbn [PosixAbs.all_slashes PosixAbs.rstrip_slash].
  change (Ascii.eqb "/" "/") with true. cbn [andb]. intros Hs.
  destruct (PosixAbs.rstrip_slash s) as [|c r] eqn:Hr; [|eauto].
  exfalso. induction s as [|c s IH]; [done|].
  cbn [PosixAbs.all_slashes PosixAbs.rstrip_slash] in *.
  destruct (PosixAbs.rstrip_slash s); [|done].
  destruct (Ascii.eqb c "/"); [|done]. by apply IH.
Qed.

Lemma posix_dirname_abs p :
  PosixAbs.posix_isabs p = true ->
  PosixAbs.posix_isabs (PosixAbs.posix_dirname p) = true.
Proof.
  intros [p' ->]%posix_isabs_cons. unfold PosixAbs.posix_dirname.
  cbn [PosixAbs.upto_last_slash]. change (Ascii.eqb "/" "/") with true.
  cbn [orb]. change (String "/" (PosixAbs.upto_last_slash p') =? "")%string
    with false. cbn [negb andb].
  destruct (PosixAbs.all_slashes _) eqn:Hall; cbn [negb];
    [apply startswith_slash|].
  destruct (rstrip_slash_abs _ Hall) as [r ->]. apply startswith_slash.
Qed.

Lemma Forall_removelast {A} (P : A -> Prop) (l : list A) :
  Forall P l -> Forall P (removelast l).
Proof.
  induction 1 as [|x l Hx Hl IH]; [done|]. cbn [removelast].
  destruct l; [done|]. by constructor.
Qed.

Lemma norm_step_keeps_plain i acc c :
  i <> 0 -> no_char "/" c = true -> Forall plain acc ->
  Forall plain (PosixPath.norm_step i acc c).
Proof.
  intros Hi Hc Hacc. unfold PosixPath.norm_step.
  destruct (String.eqb_spec c "") as [|H0]; [done|].
  destruct (String.eqb_spec c ".") as [|H1]; [done|]. cbn [orb].
  destruct (String.eqb_spec c "..") as [->|H2]; cbn [negb orb].
  - apply Nat.eqb_neq in Hi. rewrite Hi. cbn [andb orb].
    destruct (last acc) as [top|] eqn:Hlast; [|by apply Forall_removelast].
    apply last_Some in Hlast as [l' ->].
    pose proof Hacc as [_ [(_ & _ & _ & Htop) _]%Forall_cons]%Forall_app.
    apply String.eqb_neq in Htop. rewrite Htop.
    by apply Forall_removelast.
  - apply Forall_app. split; [done|]. by repeat constructor.
Qed.

Lemma fold_norm_step_keeps_plain i l acc :
  i <> 0 -> Forall (fun c => no_char "/" c = true) l -> Forall plain acc ->
  Forall plain (fold_left (PosixPath.norm_step i) l acc).
Proof.
  intros Hi Hl. revert acc. induction Hl as [|c l Hc _ IH]; intros acc Hacc;
    [done|].
  cbn [fold_left]. by apply IH, norm_step_keeps_plain.
Qed.

Lemma plain_head f : plain f -> exists c s, f = String c s /\ c <> "/"%char.
Proof.
  intros (Hs & H0 & _). destruct f as [|c s]; [done|]. exists c, s.
  split; [done|]. cbn [no_char] in Hs.
  apply andb_true_iff in Hs as [Hc%negb_true_iff _]. by apply Ascii.eqb_neq.
Qed.

Lemma join_slash_head cs :
  Forall plain cs ->
  PosixPath.join_slash cs = ""
  \/ exists c s, PosixPath.join_slash cs = String c s /\ c <> "/"%char.
Proof.
  intros [|x l Hx _]; [by left|]. right.
  destruct (plain_head x Hx) as (c & s & -> & Hc).
  destruct l as [|y l]; [by eauto|].
  rewrite join_slash_cons by done. rewrite append_cons. eauto.
Qed.

Lemma split_join_slash cs :
  cs <> [] -> Forall plain cs ->
  PosixPath.split_slash (PosixPath.join_slash cs) = cs.
Proof.
  intros Hne Hcs. induction Hcs as [|x l Hx Hl IH]; [done|].
  destruct l as [|y l].
  - apply split_slash_plain, Hx.
  - rewrite join_slash_cons by done. rewrite split_slash_app.
    rewrite (split_slash_plain x) by apply Hx. by rewrite IH.
Qed.

Lemma fold_norm_step_join i cs :
  Forall plain cs ->
  fold_left (PosixPath.norm_step i)
    (PosixPath.split_slash (PosixPath.join_slash cs)) [] = cs.
Proof.
  intros Hcs. destruct cs as [|x l]; [done|].
  rewrite split_join_slash by done. by apply fold_norm_step_plain.
Qed.

Lemma posix_normpath_form p :
  PosixAbs.posix_isabs p = true ->
  exists i cs, (i = 1 \/ i = 2) /\ Forall plain cs
    /\ PosixPath.posix_normpath p = normal_form i cs.
Proof.
  intros [p' ->]%posix_isabs_cons. unfold PosixPath.posix_normpath.
  change (String "/" p' =? "")%string with false.
  rewrite startswith_slash. cbv iota.
  set (i := if _ && _ then 2 else 1).
  assert (i = 1 \/ i = 2) as Hi by (subst i; destruct (_ && _); auto).
  exists i, (fold_left (PosixPath.norm_step i)
               (PosixPath.split_slash (String "/" p')) []).
  split; [done|]. split.
  - apply fold_norm_step_keeps_plain; [lia|apply split_slash_no_slash|done].
  - unfold normal_form.
    destruct Hi as [-> | ->]; cbn [repeat Str.concat]; by rewrite !append_cons.
Qed.

Lemma split_slash_slash x :
  PosixPath.split_slash (String "/" x) = "" :: PosixPath.split_slash x.
Proof. reflexivity. Qed.

Lemma fold_norm_step_empty i l acc :
  fold_left (PosixPath.norm_step i) ("" :: l) acc
  = fold_left (PosixPath.norm_step i) l acc.
Proof. reflexivity. Qed.

Lemma posix_normpath_normal i cs :
  i = 1 \/ i = 2 -> Forall plain cs ->
  PosixPath.posix_normpath (normal_form i cs) = normal_form i cs.
Proof.
  intros Hi Hcs.
  pose proof (fold_norm_step_join 1 cs Hcs) as Hf1.
  pose proof (fold_norm_step_join 2 cs Hcs) as Hf2.
  destruct Hi as [-> | ->].
  - change (normal_form 1 cs) with (String "/" (PosixPath.join_slash cs)).
    destruct (join_slash_head cs Hcs) as [Hj|(c & s & Hj & Hc)];
      rewrite Hj in *; [reflexivity|].
    unfold PosixPath.posix_normpath.
    change (String "/" ?x =? "")%string with false. cbv iota.
    unfold Str.startswith. cbn [String.prefix].
    destruct (ascii_dec "/" "/") as [_|?]; [|done].
    destruct (ascii_dec "/" c) as [?|_]; [done|]. cbn [andb].
    rewrite split_slash_slash, fold_norm_step_empty, Hf1, Hj.
    reflexivity.
  - change (normal_form 2 cs)
      with (String "/" (String "/" (PosixPath.join_slash cs))).
    destruct (join_slash_head cs Hcs) as [Hj|(c & s & Hj & Hc)];
      rewrite Hj in *; [reflexivity|].
    unfold PosixPath.posix_normpath.
    change (String "/" ?x =? "")%string with false. cbv iota.
    unfold Str.startswith. cbn [String.prefix].
    destruct (ascii_dec "/" "/") as [_|?]; [|done].
    destruct (ascii_dec "/" c) as [?|_]; [done|]. cbn [andb negb].
    rewrite !split_slash_slash, !fold_norm_step_empty, Hf2, Hj.
    reflexivity.
Qed.

(** [normpath] of an absolute path is a fixed point of [normpath]. *)
Lemma posix_normpath_idem p :
  PosixAbs.posix_isabs p = true ->
  PosixPath.posix_normpath (PosixPath.posix_normpath p)
  = PosixPath.posix_normpath p.
Proof.
  intros (i & cs & Hi & Hcs & ->)%posix_normpath_form.
  by apply posix_normpath_normal.
Qed.

Lemma get_path_resolved cwd parent_path data path :
  PosixAbs.posix_isabs parent_path = true ->
  data !! "PATH" = Some path ->
  get_path (H := PosixPath.posix) (H0 := PosixAbs.posix_abs cwd)
    parent_path data
  = Path (PosixPath.posix_normpath
            (if PosixAbs.posix_isabs path then path
             else PosixPath.posix_join (PosixAbs.posix_dirname parent_path)
                    path)).
Proof.
  intros Hparent Hpath. unfold get_path. rewrite Hpath.
  cbn [isabs dirname abspath join normpath PosixAbs.posix_abs PosixPath.posix].
  destruct (PosixAbs.posix_isabs path) eqn:Habs; cbn [negb]; [done|].
  assert (PosixAbs.posix_isabs
            (PosixPath.posix_join (PosixAbs.posix_dirname parent_path) path)
          = true) as Hj by by apply posix_join_abs, posix_dirname_abs.
  unfold PosixAbs.posix_abspath. rewrite Hj. cbn [negb].
  by rewrite posix_normpath_idem.
Qed.

(** X16: on a POSIX platform, for a descriptor file given by an absolute path
    and a record that has a PATH, [get_path] returns the PATH itself when it
    is absolute and otherwise the PATH joined to the directory of the
    descriptor file, normalised in both cases.  The result is absolute, is
    in normal form, and does not depend on the current directory. *)
Theorem get_path_absolute cwd parent_path data path :
  PosixAbs.posix_isabs parent_path = true ->
  data !! "PATH" = Some path ->
  content_path_property cwd parent_path data path.
Proof.
  intros Hparent Hpath. unfold content_path_property. cbv zeta.
  assert (PosixAbs.posix_isabs
            (if PosixAbs.posix_isabs path then path
             else PosixPath.posix_join (PosixAbs.posix_dirname parent_path)
                    path) = true) as Habs.
  { destruct (PosixAbs.posix_isabs path) eqn:Hp; [done|].
    by apply posix_join_abs, posix_dirname_abs. }
  split_and!.
  - by apply get_path_resolved.
  - by apply posix_normpath_abs.
  - by apply posix_normpath_idem.
  - intros cwd'. by apply get_path_resolved.
Qed.

Lemma concat_keepends s : Str.concat (Str.keepends s) = s.
Proof.
  induction s as [|c s IH]; [done|]. cbn [Str.keepends].
  destruct (Ascii.eqb_spec c Str.LF) as [->|_].
  - cbn [Str.concat]. by rewrite IH.
  - destruct (Str.keepends s) as [|l ls].
    + cbn [Str.concat] in *. by rewrite <- IH.
    + cbn [Str.concat] in *. by rewrite append_cons, IH.
Qed.

(** [keepends] cuts after every line feed and nowhere else: no line is
    empty, and every line but the last ends with a line feed. *)
Lemma keepends_cut s i raw :
  Str.keepends s !! i = Some raw ->
  raw <> ""
  /\ (S i < length (Str.keepends s) -> exists body, raw = body +:+ Str.nl).
Proof.
  revert i raw. induction s as [|c s IH]; intros i raw; cbn [Str.keepends].
  - by rewrite lookup_nil.
  - destruct (Ascii.eqb_spec c Str.LF) as [->|Hc].
    + destruct i as [|i]; cbn [lookup list_lookup length].
      * intros [= <-]. split; [done|]. intros _. by exists "".
      * intros Hraw. destruct (IH i raw Hraw) as [Hne Hnl].
        split; [done|]. intros Hlen. apply Hnl. lia.
    + destruct (Str.keepends s) as [|l ls] eqn:Hk.
      * destruct i as [|i]; cbn [lookup list_lookup length]; [|done].
        intros [= <-]. split; [done|]. lia.
      * destruct i as [|i]; cbn [lookup list_lookup length].
        -- intros [= <-]. split; [done|]. intros Hlen.
           destruct (IH 0 l eq_refl) as [_ Hnl].
           destruct Hnl as [body ->]; [cbn [length]; lia|].
           by exists (String c body).
        -- intros Hraw. destruct (IH (S i) raw Hraw) as [Hne Hnl].
           split; [done|]. intros Hlen. apply Hnl. cbn [length]. lia.
Qed.

Lemma strip_stripped src raw :
  raw ∈ Str.readlines src -> stripped raw (Str.strip raw).
Proof.
  intros Hraw. split.
  - apply (read_lines_clean src), list_elem_of_fmap. by exists raw.
  - apply strip_decompose.
Qed.

(** X1: [read_module_file] changes nothing.  It raises [OSError] when the
    file is missing or cannot be opened and [UnicodeDecodeError] when the
    file opens but does not decode.  In every other case it returns, for
    each line of the text in turn (the text, with its line ends read as
    line feeds, cut after every line feed), that line without the
    whitespace at its two ends: what is returned has no whitespace at its
    ends and no line terminator, and stripping it again is the identity. *)
Theorem read_module_file_lines path w :
  read_lines_property path w.
Proof.
  unfold read_lines_property. cbv zeta. rewrite read_module_file_run.
  split_and!.
  - by destruct (fault w), (disk w !! path).
  - intros [-> | ->]; [done|]. by destruct (fault w).
  - by intros -> [src ->].
  - intros src Hf Hd ->. eexists. split_and!.
    + by destruct (fault w).
    + pose proof (strip_stripped src) as Hs.
      induction (Str.readlines src) as [|raw raws IH]; [constructor|].
      cbn [map]. constructor.
      * apply Hs. left.
      * apply IH. intros r Hr. apply Hs. by right.
    + apply concat_keepends.
    + apply Forall_forall. intros raw Hraw. by eapply keepends_lines.
    + apply keepends_cut.
    + apply Forall_forall. intros line Hline.
      by apply clean_strip, (read_lines_clean src).
Qed.

(** X8: switching a record changes nothing in what the file's widget shows:
    before and after the update the file yields equally many records, and
    with or without "show all" the same ones are visible. *)
Theorem update_module_file_keeps_visibility path state data w d e src :
  fault w = no_fault ->
  heap w !! data = Some d ->
  d !! "ENABLED" = Some e ->
  disk w !! path = Some src ->
  visibility_kept_property path state data w.
Proof.
  intros Hf Hd He Hsrc. unfold visibility_kept_property. cbv zeta.
  rewrite (update_module_file_ok _ _ _ _ d e src Hf Hd He Hsrc). cbn [snd].
  rewrite !filter_module_file_run. cbn [fault disk].
  rewrite Hf, Hsrc, lookup_insert_eq. unfold rewritten.
  rewrite (read_back _ (rewritten_lines_clean _ _ src)).
  pose proof (omap_record_of_rewrite state (delete "ENABLED" d)
                (map Str.strip (Str.readlines src))) as Hrecs.
  eexists _, _. split_and!; [done..| |].
  - symmetry. by eapply Forall2_length.
  - intros env show_all. unfold manage_module_details.
    induction Hrecs as [|r r' recs recs' (Hid & _) _ IH]; [done|].
    cbn [map]. rewrite IH. f_equal. destruct show_all; [done|].
    by apply is_compatible_identity.
Qed.

Lemma update_module_file_read_back_witness :
  read_back_property "/mods/tool.mod" false 0 tool_world tool_mod.
Proof.
  apply (update_module_file_read_back "/mods/tool.mod" false 0 tool_world
           tool_record "+" tool_mod); reflexivity.
Defined.

Lemma update_module_file_last_write_witness :
  last_write_property "/mods/tool.mod" true false 0 1 two_dict_world.
Proof.
  apply (update_module_file_last_write "/mods/tool.mod" true false 0 1
           two_dict_world tool_record tool_record "+" "+" tool_mod);
    first [reflexivity | lia].
Defined.

Lemma update_module_file_reuse_raises_witness :
  reuse_property "/mods/tool.mod" false true 0 tool_world.
Proof.
  apply (update_module_file_reuse_raises "/mods/tool.mod" false true 0
           tool_world tool_record). reflexivity.
Defined.

Lemma update_module_file_toggle_back_witness :
  toggle_back_property "/mods/tool.mod" true 0 1 two_dict_world.
Proof.
  apply (update_module_file_toggle_back "/mods/tool.mod" true 0 1
           two_dict_world tool_record tool_record "+" "+" tool_mod).
  - reflexivity.
  - lia.
  - reflexivity.
  - reflexivity.
  - reflexivity.
  - reflexivity.
  - reflexivity.
  - reflexivity.
  - vm_compute. reflexivity.
  - intros raw Hraw%list_elem_of_In. vm_compute in Hraw.
    destruct Hraw as [<-|[<-|[<-|[<-|[]]]]]; intros Hid;
      first [ by vm_compute
            | apply (f_equal (fun o => o ≫= (fun m : dict => m !! "NAME"))) in Hid;
              vm_compute in Hid; discriminate Hid ].
Defined.

Lemma update_module_file_keeps_records_witness :
  records_kept_property "/mods/tool.mod" false 0 tool_world tool_record.
Proof.
  apply (update_module_file_keeps_records "/mods/tool.mod" false 0 tool_world
           tool_record "+" tool_mod); reflexivity.
Defined.

Lemma update_module_file_keeps_visibility_witness :
  visibility_kept_property "/mods/tool.mod" false 0 tool_world.
Proof.
  apply (update_module_file_keeps_visibility "/mods/tool.mod" false 0
           tool_world tool_record "+" tool_mod); reflexivity.
Defined.

Lemma emit_enabled_changed_twice_witness :
  emit_twice_property 0 "/mods/tool.mod" false true tool_world.
Proof.
  apply (emit_enabled_changed_twice 0 "/mods/tool.mod" false true tool_world
           tool_record "+" tool_mod); reflexivity.
Defined.

Lemma is_compatible_same_arguments_witness :
  is_compatible (Environment "2024" "win64" "en_US") tool_record
  = is_compatible (Environment "2024" "win64" "en_US") tool_record_off
  /\ is_compatible (Environment "2024" "win64" "en_US")
       (delete "ENABLED" tool_record)
     = is_compatible (Environment "2024" "win64" "en_US") tool_record
  /\ forall v,
       is_compatible (Environment "2024" "win64" "en_US")
         (<["ENABLED" := v]> tool_record)
       = is_compatible (Environment "2024" "win64" "en_US") tool_record.
Proof.
  apply (is_compatible_same_arguments (Environment "2024" "win64" "en_US")
           tool_record tool_record_off).
  intros key Hkey. unfold MODULE_ARGUMENTS in Hkey.
  repeat (apply elem_of_cons in Hkey as [->|Hkey]);
    [reflexivity..|].
  by apply elem_of_nil in Hkey.
Defined.

Lemma get_module_file_paths_stable_witness :
  stable_order_property (H := PosixPath.posix) shadow_tree
    ["/user"; "/missing"; "/site"].
Proof.
  apply (get_module_file_paths_stable (H := PosixPath.posix) shadow_tree);
    repeat constructor; by vm_compute.
Defined.

Example get_module_file_paths_shadow :
  get_module_file_paths (H := PosixPath.posix) shadow_tree
    ["/user"; "/missing"; "/site"]
  = Ret ["/user/alpha.mod"; "/user/tool.mod"; "/site/tool.mod"; "/site/zeta.mod"].
Proof. vm_compute. reflexivity. Qed.

Lemma get_icon_path_spec_witness :
  icon_path_property (H := PosixPath.posix) ":" icon_environ icon_tree
    "MM_icon.png" "/icons:/opt/maya/icons".
Proof.
  apply (get_icon_path_spec (H := PosixPath.posix) icon_tree ":" icon_environ
           "MM_icon.png" "/icons:/opt/maya/icons"). reflexivity.
Defined.

Example get_icon_path_example :
  get_icon_path (H := PosixPath.posix) ":" icon_environ icon_tree "MM_icon.png"
  = Ret (Some "/opt/maya/icons/MM_icon.png").
Proof. vm_compute. reflexivity. Qed.

Lemma get_path_absolute_witness :
  content_path_property "/home/user" "/mods/tool.mod" tool_record
    "../content".
Proof.
  apply (get_path_absolute "/home/user" "/mods/tool.mod" tool_record
           "../content"); reflexivity.
Defined.

Example get_path_example :
  get_path (H := PosixPath.posix) (H0 := PosixAbs.posix_abs "/home/user")
    "/mods/tool.mod" tool_record
  = Path "/content".
Proof. vm_compute. reflexivity. Qed.

Lemma winner_unique k T t :
  t ∈ T -> attr_key t = Some k ->
  (forall t', t' ∈ T -> attr_key t' = Some k -> t' = t) ->
  winner k T = Some t.
Proof.
  induction T as [|x T IH]; intros Hin Hk Huniq; [by apply elem_of_nil in Hin|].
  cbn [winner]. destruct (decide (attr_key x = Some k)) as [Hx|Hx].
  - assert (x = t) as -> by (apply Huniq; [left|done]).
    rewrite bool_decide_eq_true_2 by done.
    destruct (decide (t ∈ T)) as [HT|HT].
    + rewrite (bool_decide_eq_true_2 _ HT). cbn [negb andb].
      apply IH; [done..|]. intros t' Ht'. apply Huniq. by right.
    + by rewrite (bool_decide_eq_false_2 _ HT).
  - rewrite (bool_decide_eq_false_2 _ Hx). cbn [andb].
    apply elem_of_cons in Hin as [->|Hin]; [done|].
    apply IH; [done..|]. intros t' Ht'. apply Huniq. by right.
Qed.

Lemma winner_none k T :
  (forall t, t ∈ T -> attr_key t <> Some k) -> winner k T = None.
Proof.
  induction T as [|x T IH]; intros Hno; [done|]. cbn [winner].
  rewrite bool_decide_eq_false_2 by (apply Hno; left). cbn [andb].
  apply IH. intros t Ht. apply Hno. by right.
Qed.

Lemma winner_perm k T T' :
  T ≡ₚ T' ->
  (forall t t', t ∈ T -> t' ∈ T ->
     attr_key t = Some k -> attr_key t' = Some k -> t = t') ->
  winner k T = winner k T'.
Proof.
  intros Hperm Huniq.
  destruct (winner k T) as [t|] eqn:Hw.
  - assert (t ∈ T /\ attr_key t = Some k) as [Hin Hk].
    { clear Huniq Hperm. induction T as [|x T IH]; [done|]. cbn [winner] in Hw.
      destruct (bool_decide (attr_key x = Some k)) eqn:Hx; cbn [andb] in Hw.
      - destruct (negb _).
        + injection Hw as <-. apply bool_decide_eq_true in Hx. split; [left|done].
        + destruct (IH Hw). split; [by right|done].
      - destruct (IH Hw). split; [by right|done]. }
    symmetry. apply winner_unique; [by rewrite <- Hperm|done|].
    intros t' Ht' Hk'. rewrite <- Hperm in Ht'. by apply Huniq.
  - symmetry. apply winner_none. intros t Ht Hk. rewrite <- Hperm in Ht.
    rewrite (winner_unique k T t Ht Hk) in Hw; [done|].
    intros t' Ht' Hk'. by apply Huniq.
Qed.

(** X11: keyed tokens may stand anywhere in a record line and in any order:
    two marker-led lines with the same tokens, the positional ones in the
    same order, give the same result, provided no key is carried by two
    different tokens. *)
Theorem parse_module_line_token_order line1 line2 :
  starts_with_marker line1 = true ->
  starts_with_marker line2 = true ->
  Str.split line1 ≡ₚ Str.split line2 ->
  positional (Str.split line1) = positional (Str.split line2) ->
  (forall k t t', t ∈ Str.split line1 -> t' ∈ Str.split line1 ->
     attr_key t = Some k -> attr_key t' = Some k -> t = t') ->
  parse_module_line line1 = parse_module_line line2.
Proof.
  intros Hm1 Hm2 Hperm Hpos Huniq.
  rewrite !parse_module_line_spec, Hm1, Hm2, Hpos.
  assert (attributes (Str.split line1) = attributes (Str.split line2)) as ->;
    [|done].
  apply map_eq. intros k. rewrite !attributes_winner.
  by rewrite (winner_perm k _ _ Hperm (Huniq k)).
Qed.

Lemma parse_module_line_token_order_witness :
  parse_module_line "+ MAYAVERSION:2024 Tool 1.0 ../content"
  = parse_module_line "+  Tool 1.0 ../content   MAYAVERSION:2024".
Proof.
  apply (parse_module_line_token_order
           "+ MAYAVERSION:2024 Tool 1.0 ../content"
           "+  Tool 1.0 ../content   MAYAVERSION:2024").
  - vm_compute; reflexivity.
  - vm_compute; reflexivity.
  - change (["+"; "MAYAVERSION:2024"; "Tool"; "1.0"; "../content"]
            ≡ₚ ["+"; "Tool"; "1.0"; "../content"; "MAYAVERSION:2024"]).
    apply perm_skip.
    apply (Permutation_cons_append ["Tool"; "1.0"; "../content"]).
  - vm_compute; reflexivity.
  - change (Str.split "+ MAYAVERSION:2024 Tool 1.0 ../content")
      with ["+"; "MAYAVERSION:2024"; "Tool"; "1.0"; "../content"].
    intros k t t' Ht Ht' Hk Hk'.
    rewrite !elem_of_cons in Ht, Ht'.
    destruct Ht as [->|[->|[->|[->|[->|Ht]]]]];
      try (by apply elem_of_nil in Ht); vm_compute in Hk; try discriminate Hk;
      destruct Ht' as [->|[->|[->|[->|[->|Ht']]]]];
      try (by apply elem_of_nil in Ht'); vm_compute in Hk';
      try discriminate Hk'; reflexivity.
Defined.
